(** * Thumbnail generator (app.py): a shallow embedding and its properties

    The handler [get_thumbnail] of app.py clamps the requested dimensions,
    resolves two colours (hex strings, with a random fallback), renders a
    vertical gradient, draws the caption and returns PNG bytes.

    Python values are modelled as follows.
    - [int] is [Z] (arbitrary precision).
    - [float] is IEEE-754 binary64, as the Standard Library's [spec_float]
      with precision 53 and maximal exponent 1024; every operation rounds to
      nearest, ties to even, exactly as CPython's C doubles do.
    - [str] is a list of characters; a character is a code point below 256
      (type [ascii]).
    - an exception is a value: functions that can raise return [result].
    - [random.randint] reads the next outcome of the process-wide generator;
      the generator is a sequence of raw outcomes and the state is the number
      of outcomes consumed so far. *)

From Stdlib Require Import ZArith QArith Qround List Bool Ascii String Lia SpecFloat.
Import ListNotations.
Local Open Scope Z_scope.

(** ** Exceptions and results *)

Inductive exn : Type :=
| ValueError
| AttributeError
| ZeroDivisionError
| OverflowError
| OSError.

Inductive result (A : Type) : Type :=
| Ok (a : A)
| Raise (e : exn).
Arguments Ok {A} a.
Arguments Raise {A} e.

Definition bind {A B : Type} (r : result A) (k : A -> result B) : result B :=
  match r with
  | Ok a => k a
  | Raise e => Raise e
  end.

Declare Scope py_scope.
Delimit Scope py_scope with py.
Notation "x <- r ;; k" := (bind r (fun x => k))
  (at level 61, r at next level, right associativity) : py_scope.
Local Open Scope py_scope.

(** ** Dimension normalisation (app.py, lines 111-130)

    The handler carries the same block twice, once for the width and once
    for the height; [clamp_nearest] is that block with the two bounds as
    arguments. *)

Definition clamp_nearest (lo hi value : Z) : Z :=
  if (value <=? lo) || (value >=? hi) then
    let distance_from_max := Z.abs (value - hi) in
    let distance_from_min := Z.abs (value - lo) in
    if distance_from_max <? distance_from_min then hi else lo
  else value.

(** The bounds come from config.py, which is not part of the sources:
    they are parameters of the development. *)
Record Config : Type := {
  API_THUMBNAIL_MIN_WIDTH : Z;
  API_THUMBNAIL_MAX_WIDTH : Z;
  API_THUMBNAIL_MIN_HEIGHT : Z;
  API_THUMBNAIL_MAX_HEIGHT : Z
}.

Definition normalize_width (cfg : Config) (width : Z) : Z :=
  clamp_nearest (API_THUMBNAIL_MIN_WIDTH cfg) (API_THUMBNAIL_MAX_WIDTH cfg) width.

Definition normalize_height (cfg : Config) (height : Z) : Z :=
  clamp_nearest (API_THUMBNAIL_MIN_HEIGHT cfg) (API_THUMBNAIL_MAX_HEIGHT cfg) height.

(** ** Python floats: binary64 arithmetic *)

Module PyFloat.

Definition prec : Z := 53.
Definition emax : Z := 1024.

Definition float : Type := spec_float.

Definition add : float -> float -> float := SFadd prec emax.
Definition sub : float -> float -> float := SFsub prec emax.
Definition mul : float -> float -> float := SFmul prec emax.

(** [float(z)] for an [int] z: the nearest double; too large an integer
    raises OverflowError. *)
Definition of_int (z : Z) : result float :=
  match binary_normalize prec emax z 0 false with
  | S754_infinity _ => Raise OverflowError
  | f => Ok f
  end.

(** [x / y] on floats: a zero divisor raises ZeroDivisionError. *)
Definition truediv (x y : float) : result float :=
  match y with
  | S754_zero _ => Raise ZeroDivisionError
  | _ => Ok (SFdiv prec emax x y)
  end.

(** [a / b] on ints: the correctly rounded quotient of the two integers
    (CPython's long_true_divide). *)
Definition int_truediv (a b : Z) : result float :=
  let negate := xorb (a <? 0) (b <? 0) in
  if b =? 0 then Raise ZeroDivisionError
  else if a =? 0 then Ok (S754_zero negate)
  else
    let '(q, e, l) := SFdiv_core_binary prec emax (Z.abs a) 0 (Z.abs b) 0 in
    match binary_round_aux prec emax negate q e l with
    | S754_infinity _ => Raise OverflowError
    | f => Ok f
    end.

(** [int(x)] for a float x: truncation toward zero. *)
Definition to_int (x : float) : result Z :=
  match x with
  | S754_zero _ => Ok 0
  | S754_finite s m e =>
      let magnitude :=
        match e with
        | Zneg p => Z.shiftr (Zpos m) (Zpos p)
        | _ => Z.shiftl (Zpos m) e
        end in
      Ok (if s then - magnitude else magnitude)
  | S754_infinity _ => Raise OverflowError
  | S754_nan => Raise ValueError
  end.

(** Mixed arithmetic converts the [int] operand first. *)
Definition int_sub_float (a : Z) (y : float) : result float :=
  x <- of_int a ;; Ok (sub x y).
Definition int_add_float (a : Z) (y : float) : result float :=
  x <- of_int a ;; Ok (add x y).
Definition int_mul_float (a : Z) (y : float) : result float :=
  x <- of_int a ;; Ok (mul x y).
Definition float_mul_int (x : float) (b : Z) : result float :=
  y <- of_int b ;; Ok (mul x y).
Definition int_div_float (a : Z) (y : float) : result float :=
  x <- of_int a ;; truediv x y.

(** The literal [0.05]: the double nearest to 1/20. *)
Definition lit_0_05 : float := S754_finite false 7205759403792794 (-57).

(** [math.floor(x)] and [round(x)] (ties to even) of a float, used only
    to state what the specification says. *)
Definition floor (x : float) : result Z :=
  match x with
  | S754_zero _ => Ok 0
  | S754_finite s m e =>
      match e with
      | Zneg p =>
          if s then Ok (- ((Zpos m + 2 ^ Zpos p - 1) / 2 ^ Zpos p))
          else Ok (Zpos m / 2 ^ Zpos p)
      | _ => Ok (if s then - (Zpos m * 2 ^ e) else Zpos m * 2 ^ e)
      end
  | S754_infinity _ => Raise OverflowError
  | S754_nan => Raise ValueError
  end.

Definition round (x : float) : result Z :=
  match x with
  | S754_zero _ => Ok 0
  | S754_finite s m e =>
      match e with
      | Zneg p =>
          let q := Zpos m / 2 ^ Zpos p in
          let twice_rest := 2 * (Zpos m mod 2 ^ Zpos p) in
          let up :=
            if twice_rest <? 2 ^ Zpos p then false
            else if 2 ^ Zpos p <? twice_rest then true
            else Z.odd q in
          let n := if up then q + 1 else q in
          Ok (if s then - n else n)
      | _ => Ok (if s then - (Zpos m * 2 ^ e) else Zpos m * 2 ^ e)
      end
  | S754_infinity _ => Raise OverflowError
  | S754_nan => Raise ValueError
  end.

End PyFloat.

(** ** Images (the part of PIL the handler uses)

    An RGB image is its rows, top to bottom, each row its pixels, left to
    right.  A pixel holds the colour handed to the drawing call. *)

Definition color : Type := (Z * Z * Z)%type.
Definition image : Type := list (list color).

Fixpoint map_index {A : Type} (f : Z -> A -> A) (i : Z) (l : list A) : list A :=
  match l with
  | [] => []
  | a :: l' => f i a :: map_index f (i + 1) l'
  end.

Module PIL.

(** [Image.new("RGB", (width, height))]: a black image; a negative size
    raises ValueError. *)
Definition new (width height : Z) : result image :=
  if (width <? 0) || (height <? 0) then Raise ValueError
  else Ok (repeat (repeat (0, 0, 0) (Z.to_nat width)) (Z.to_nat height)).

(** [draw.line((x0, y, x1, y), fill=fill)]: the pixels of row [y] with
    [x0 <= x <= x1] take the colour [fill]; the part of the segment that
    lies outside the image is dropped. *)
Definition line (img : image) (x0 y x1 : Z) (fill : color) : image :=
  map_index
    (fun j row =>
       if j =? y
       then map_index (fun x px => if (x0 <=? x) && (x <=? x1) then fill else px) 0 row
       else row)
    0 img.

End PIL.

(** [range(n)] *)
Definition range (n : Z) : list Z := map Z.of_nat (seq 0 (Z.to_nat n)).

(** ** generate_gradient (app.py, lines 41-59) *)

(** [int(color1[i] * (1 - r) + color2[i] * r)] *)
Definition gradient_channel (c1 c2 : Z) (r : PyFloat.float) : result Z :=
  one_minus_r <- PyFloat.int_sub_float 1 r ;;
  top <- PyFloat.int_mul_float c1 one_minus_r ;;
  bottom <- PyFloat.int_mul_float c2 r ;;
  PyFloat.to_int (PyFloat.add top bottom).

(** The body of the loop up to the colour: [r = y / height] and the tuple
    of the three channels. *)
Definition gradient_color (color1 color2 : color) (y height : Z) : result color :=
  r <- PyFloat.int_truediv y height ;;
  let '(r1, g1, b1) := color1 in
  let '(r2, g2, b2) := color2 in
  cr <- gradient_channel r1 r2 r ;;
  cg <- gradient_channel g1 g2 r ;;
  cb <- gradient_channel b1 b2 r ;;
  Ok (cr, cg, cb).

Fixpoint gradient_rows (ys : list Z) (width height : Z) (color1 color2 : color)
    (img : image) : result image :=
  match ys with
  | [] => Ok img
  | y :: ys' =>
      fill <- gradient_color color1 color2 y height ;;
      gradient_rows ys' width height color1 color2 (PIL.line img 0 y width fill)
  end.

Definition generate_gradient (width height : Z) (color1 color2 : color) : result image :=
  img <- PIL.new width height ;;
  gradient_rows (range height) width height color1 color2 img.

(** ** get_font_size (app.py, lines 73-82) *)

Definition len (s : string) : Z := Z.of_nat (String.length s).

(** [int(100 / (1 + 0.05 * abs(20 - length)))] *)
Definition font_size_of_length (length : Z) : result Z :=
  scaled <- PyFloat.float_mul_int PyFloat.lit_0_05 (Z.abs (20 - length)) ;;
  denominator <- PyFloat.int_add_float 1 scaled ;;
  quotient <- PyFloat.int_div_float 100 denominator ;;
  PyFloat.to_int quotient.

Definition get_font_size (text : string) : result Z :=
  font_size_of_length (len text).

(** ** Python strings *)

Module PyStr.

Definition code (c : ascii) : Z := Z.of_N (N_of_ascii c).

(** [s.lstrip(c)] for a one-character argument: every leading [c] goes. *)
Fixpoint lstrip (s : string) (c : ascii) : string :=
  match s with
  | String a s' => if Ascii.eqb a c then lstrip s' c else s
  | EmptyString => s
  end.

(** [str.lower] on one code point below 256: A-Z and the accented
    capitals U+00C0-U+00DE (except the sign U+00D7) move up by 32. *)
Definition lower_char (c : ascii) : ascii :=
  let n := code c in
  if ((65 <=? n) && (n <=? 90))
     || ((192 <=? n) && (n <=? 222) && negb (n =? 215))
  then ascii_of_N (Z.to_N (n + 32))
  else c.

Fixpoint lower (s : string) : string :=
  match s with
  | String a s' => String (lower_char a) (lower s')
  | EmptyString => EmptyString
  end.

(** [s[i:j]] for [0 <= i <= j]; the slice stops where the string stops. *)
Definition slice (s : string) (i j : nat) : string := substring i (j - i) s.

(** [s.replace(old, new)] for one-character [old] and [new]. *)
Fixpoint replace (s : string) (old new : ascii) : string :=
  match s with
  | String a s' => String (if Ascii.eqb a old then new else a) (replace s' old new)
  | EmptyString => EmptyString
  end.

(** *** [int(s, base)] on a string

    CPython first rewrites a string that is not pure ASCII
    (_PyUnicode_TransformDecimalAndSpaceToASCII): code points below 127
    stay, white space becomes a blank, and anything else (no code point in
    128..255 is a decimal digit) becomes a question mark that ends the
    text.  PyLong_FromString then reads blanks, a sign, an optional base
    prefix, the digits (single underscores between them) and blanks; the
    whole text has to be consumed. *)

Fixpoint forall_chars (p : ascii -> bool) (s : string) : bool :=
  match s with
  | String a s' => p a && forall_chars p s'
  | EmptyString => true
  end.

Definition is_ascii (s : string) : bool := forall_chars (fun c => code c <? 128) s.

(** Py_UNICODE_ISSPACE on 127..255: NEL and the no-break space. *)
Definition is_unicode_space_high (c : ascii) : bool :=
  (code c =? 133) || (code c =? 160).

Fixpoint transform_chars (s : string) : string :=
  match s with
  | String a s' =>
      if code a <? 127 then String a (transform_chars s')
      else if is_unicode_space_high a then String " " (transform_chars s')
      else String "?" EmptyString
  | EmptyString => EmptyString
  end.

Definition transform_decimal_and_space (s : string) : string :=
  if is_ascii s then s else transform_chars s.

(** Py_ISSPACE: tab, line feed, vertical tab, form feed, carriage return,
    blank. *)
Definition is_space (c : ascii) : bool :=
  ((9 <=? code c) && (code c <=? 13)) || (code c =? 32).

Fixpoint skip_spaces (s : string) : string :=
  match s with
  | String a s' => if is_space a then skip_spaces s' else s
  | EmptyString => s
  end.

(** _PyLong_DigitValue: 0-9, then a-z and A-Z as 10-35; 37 otherwise. *)
Definition digit_value (c : ascii) : Z :=
  let n := code c in
  if (48 <=? n) && (n <=? 57) then n - 48
  else if (97 <=? n) && (n <=? 122) then n - 87
  else if (65 <=? n) && (n <=? 90) then n - 55
  else 37.

(** The digit loop: [None] on a doubled or trailing underscore, else the
    value read, the number of digits and the unread rest. *)
Fixpoint scan_digits (base : Z) (s : string) (prev_underscore : bool)
    (ndigits : nat) (acc : Z) : option (Z * nat * string) :=
  match s with
  | String a s' =>
      if Ascii.eqb a "_" then
        if prev_underscore then None
        else scan_digits base s' true ndigits acc
      else if digit_value a <? base then
        scan_digits base s' false (S ndigits) (acc * base + digit_value a)
      else if prev_underscore then None
      else Some (acc, ndigits, s)
  | EmptyString =>
      if prev_underscore then None else Some (acc, ndigits, s)
  end.

Definition strip_sign (s : string) : bool * string :=
  match s with
  | String a s' =>
      if Ascii.eqb a "+" then (false, s')
      else if Ascii.eqb a "-" then (true, s')
      else (false, s)
  | EmptyString => (false, s)
  end.

(** The prefix [0x] or [0X], and one underscore after it. *)
Definition strip_hex_prefix (s : string) : string :=
  match s with
  | String a (String b s') =>
      if Ascii.eqb a "0" && (Ascii.eqb b "x" || Ascii.eqb b "X") then
        match s' with
        | String c s'' => if Ascii.eqb c "_" then s'' else s'
        | EmptyString => s'
        end
      else s
  | _ => s
  end.

Definition starts_with_underscore (s : string) : bool :=
  match s with
  | String a _ => Ascii.eqb a "_"
  | EmptyString => false
  end.

(** [int(s, 16)] *)
Definition int16 (s : string) : result Z :=
  let '(negative, digits) :=
    strip_sign (skip_spaces (transform_decimal_and_space s)) in
  let digits := strip_hex_prefix digits in
  if starts_with_underscore digits then Raise ValueError
  else
    match scan_digits 16 digits false 0 0 with
    | None => Raise ValueError
    | Some (value, ndigits, rest) =>
        match ndigits, skip_spaces rest with
        | S _, EmptyString => Ok (if negative then - value else value)
        | _, _ => Raise ValueError
        end
    end.

End PyStr.

(** ** The random generator and the handler's monad *)

Definition M (A : Type) : Type := nat -> result A * nat.

Definition ret {A : Type} (a : A) : M A := fun n => (Ok a, n).

Definition lift {A : Type} (r : result A) : M A := fun n => (r, n).

Definition mbind {A B : Type} (m : M A) (k : A -> M B) : M B :=
  fun n =>
    match m n with
    | (Ok a, n') => k a n'
    | (Raise e, n') => (Raise e, n')
    end.

Notation "x <~ m ;; k" := (mbind m (fun x => k))
  (at level 61, m at next level, right associativity) : py_scope.

(** [try: body  except ValueError: handler] *)
Definition try_except_ValueError {A : Type} (body handler : M A) : M A :=
  fun n =>
    match body n with
    | (Raise ValueError, n') => handler n'
    | outcome => outcome
    end.

(** ** The externals of the handler: font loading, text measuring, text
    drawing and PNG encoding belong to PIL and its font file. *)

Class Backend : Type := {
  font : Type;
  (** [ImageFont.truetype(name, size, encoding="unic")] *)
  truetype : string -> Z -> result font;
  (** [draw.textsize(text, font=font)] *)
  textsize : image -> string -> font -> result (Z * Z);
  (** [draw.text(position, text, fill, font, stroke_width, stroke_fill)] *)
  draw_text : image -> PyFloat.float * PyFloat.float -> string -> string ->
              font -> Z -> string -> result image;
  (** [image.save(bytes_io, format="PNG")], then the bytes read back *)
  save_png : image -> result string
}.

Record Response : Type := {
  content : string;
  media_type : string
}.

Section Handler.

Context (cfg : Config) (raw : nat -> Z) {backend : Backend}.

(** [random.randint(a, b)]: the next outcome, brought into [a..b]. *)
Definition randint (a b : Z) : M Z :=
  fun n =>
    if b <? a then (Raise ValueError, n)
    else (Ok (a + raw n mod (b - a + 1)), S n).

Definition random_color : M color :=
  r <~ randint 0 255 ;;
  g <~ randint 0 255 ;;
  b <~ randint 0 255 ;;
  ret (r, g, b).

(** [tuple(int(s[i : i + 2], 16) for i in (0, 2, 4))] *)
Definition hex_to_rgb (s : string) : result color :=
  r <- PyStr.int16 (PyStr.slice s 0 2) ;;
  g <- PyStr.int16 (PyStr.slice s 2 4) ;;
  b <- PyStr.int16 (PyStr.slice s 4 6) ;;
  Ok (r, g, b).

(** The colour block of the handler (lines 133-150 for the top colour,
    152-169 for the bottom colour: the same code on another variable). *)
Definition resolve_color (c : option string) : M color :=
  match c with
  | None => random_color
  | Some s =>
      let s := PyStr.lower (PyStr.lstrip s "#") in
      try_except_ValueError (lift (hex_to_rgb s)) random_color
  end.

(** add_text_to_image (app.py, lines 62-92) *)
Definition add_text_to_image (img : image) (text : string) (width height : Z)
    : result image :=
  font_size <- get_font_size text ;;
  fnt <- truetype "Arial Bold.ttf" font_size ;;
  size <- textsize img text fnt ;;
  let '(text_width, text_height) := size in
  x <- PyFloat.int_truediv (width - text_width) 2 ;;
  y <- PyFloat.int_truediv (height - text_height) 2 ;;
  draw_text img (x, y) text "white" fnt 3 "black".

(** get_thumbnail (app.py, lines 97-182); an absent argument is [None]. *)
Definition get_thumbnail (width height : Z)
    (top_color bottom_color text : option string) : M Response :=
  let width := normalize_width cfg width in
  let height := normalize_height cfg height in
  top_color <~ resolve_color top_color ;;
  bottom_color <~ resolve_color bottom_color ;;
  img <~ lift (generate_gradient width height top_color bottom_color) ;;
  text <~ lift (match text with
                | None => Raise AttributeError
                | Some t => Ok (PyStr.replace (PyStr.replace t "_" " ") "-" " ")
                end) ;;
  img <~ lift (add_text_to_image img text width height) ;;
  png <~ lift (save_png img) ;;
  ret {| content := png; media_type := "image/png" |}.

End Handler.

Arguments resolve_color raw c _ : assert.

(** * Specification vocabulary

    What the specification says, in its own words, next to the predicates,
    sample inputs and decision procedures that the statements and proofs
    below use. *)

(** ** Dimensions *)

(** What the specification asks of [normalize(value, lo, hi) = r]. *)
Definition normalized (lo hi value r : Z) : Prop :=
  (lo < value < hi -> r = value) /\
  (value <= lo \/ hi <= value ->
   (r = lo \/ r = hi) /\
   Z.abs (value - r) <= Z.abs (value - lo) /\
   Z.abs (value - r) <= Z.abs (value - hi)) /\
  lo <= r <= hi.

Definition sample_config : Config :=
  {| API_THUMBNAIL_MIN_WIDTH := 100; API_THUMBNAIL_MAX_WIDTH := 2000;
     API_THUMBNAIL_MIN_HEIGHT := 100; API_THUMBNAIL_MAX_HEIGHT := 2000 |}.


(** ** Colours *)

Definition is_rgb (c : color) : Prop :=
  let '(r, g, b) := c in 0 <= r <= 255 /\ 0 <= g <= 255 /\ 0 <= b <= 255.

Definition white : color := (255, 255, 255).
Definition black : color := (0, 0, 0).

(** The specification's reading of a colour string: one optional leading
    hash sign, then exactly six hexadecimal digits of either case, taken
    two by two as the red, green and blue bytes. *)
Definition is_hex_digit (c : ascii) : bool :=
  let n := PyStr.code c in
  ((48 <=? n) && (n <=? 57)) || ((97 <=? n) && (n <=? 102))
  || ((65 <=? n) && (n <=? 70)).

Definition hex_value (c : ascii) : Z :=
  let n := PyStr.code c in
  if n <=? 57 then n - 48 else if n <=? 70 then n - 55 else n - 87.

Definition hex_byte (hi lo : ascii) : Z := 16 * hex_value hi + hex_value lo.

Definition decode_six_hex (s : string) : option color :=
  match s with
  | String a (String b (String c (String d (String e (String f EmptyString))))) =>
      if forallb is_hex_digit [a; b; c; d; e; f]
      then Some (hex_byte a b, hex_byte c d, hex_byte e f)
      else None
  | _ => None
  end.

Definition strip_one_hash (s : string) : string :=
  match s with
  | String a s' => if Ascii.eqb a "#" then s' else s
  | EmptyString => s
  end.

Definition spec_decode_color (s : string) : option color :=
  decode_six_hex (strip_one_hash s).




(** The triples the three chunks can yield: each channel between -15
    (a signed digit) and 255. *)
Definition leniently_parsed (c : color) : Prop :=
  let '(r, g, b) := c in -15 <= r <= 255 /\ -15 <= g <= 255 /\ -15 <= b <= 255.

Definition small_int (c : Z) : Prop := -255 <= c <= 255.

Definition small_color (c : color) : Prop :=
  let '(r, g, b) := c in small_int r /\ small_int g /\ small_int b.

(** A chunk is a slice of at most two characters. *)
Definition chunk2 (a b : ascii) : string := String a (String b EmptyString).
Definition chunk1 (a : ascii) : string := String a EmptyString.

(** Reading a chunk either raises ValueError or gives a value between -15
    and 255. *)
Definition chunk_outcome (r : result Z) : Prop :=
  r = Raise ValueError \/ exists v, r = Ok v /\ -15 <= v <= 255.

Definition chunk_outcomeb (r : result Z) : bool :=
  match r with
  | Ok v => (-15 <=? v) && (v <=? 255)
  | Raise ValueError => true
  | Raise _ => false
  end.

(** ** The gradient, as the specification words it

    [t = y / height] in float division, and each channel the floor of
    [colorTop[c] * (1 - t) + colorBottom[c] * t]. *)

Definition spec_gradient_channel (top bottom : Z) (t : PyFloat.float) : result Z :=
  one_minus_t <- PyFloat.int_sub_float 1 t ;;
  a <- PyFloat.int_mul_float top one_minus_t ;;
  b <- PyFloat.int_mul_float bottom t ;;
  PyFloat.floor (PyFloat.add a b).

Definition spec_gradient_color (color_top color_bottom : color) (y height : Z)
    : result color :=
  t <- PyFloat.int_truediv y height ;;
  let '(r1, g1, b1) := color_top in
  let '(r2, g2, b2) := color_bottom in
  cr <- spec_gradient_channel r1 r2 t ;;
  cg <- spec_gradient_channel g1 g2 t ;;
  cb <- spec_gradient_channel b1 b2 t ;;
  Ok (cr, cg, cb).

(** The channel of the last row of the gradient from white to black. *)
Definition last_row_channel (height : Z) : result Z :=
  r <- PyFloat.int_truediv (height - 1) height ;; gradient_channel 255 0 r.

Definition rows_of_width (W : nat) (img : image) : Prop :=
  forall row, In row img -> List.length row = W.

(** ** The font size, as the specification words it *)

(** The quotient [100 / (1 + 0.05 * |20 - length|)] in exact arithmetic. *)
Definition exact_font_quotient (length : Z) : Q :=
  (100 / (1 + (5 # 100) * inject_Z (Z.abs (20 - length))))%Q.

(** The specification's font size: the float quotient, rounded. *)
Definition spec_font_size_of_length (length : Z) : result Z :=
  scaled <- PyFloat.float_mul_int PyFloat.lit_0_05 (Z.abs (20 - length)) ;;
  denominator <- PyFloat.int_add_float 1 scaled ;;
  quotient <- PyFloat.int_div_float 100 denominator ;;
  PyFloat.round quotient.

(** ** A backend that draws nothing, to run the handler *)

Definition trivial_backend : Backend :=
  {| font := unit;
     truetype := fun _ _ => Ok tt;
     textsize := fun _ _ _ => Ok (0, 0);
     draw_text := fun img _ _ _ _ _ _ => Ok img;
     save_png := fun _ => Ok EmptyString |}.

(** ** Magnitudes of floats *)

Definition float_one : PyFloat.float := S754_finite false 4503599627370496 (-52).

(** A float below 2^K in absolute value. *)
Definition mag_le (K : Z) (f : spec_float) : Prop :=
  match f with
  | S754_zero _ => True
  | S754_finite _ m e => Zdigits2 (Zpos m) + e <= K
  | _ => False
  end.

(** A positive float, at least 2^(lo-1) and below 2^hi. *)
Definition mag_in (lo hi : Z) (f : spec_float) : Prop :=
  match f with
  | S754_finite false m e => lo <= Zdigits2 (Zpos m) + e <= hi
  | _ => False
  end.

Definition nonneg (f : spec_float) : Prop :=
  match f with
  | S754_zero _ => True
  | S754_finite s _ _ => s = false
  | _ => False
  end.

(** A float between 0 and 1. *)
Definition le_one (f : spec_float) : Prop :=
  match f with
  | S754_zero _ => True
  | S754_finite false m e => e <= -52 /\ Zpos m <= 2 ^ (- e)
  | _ => False
  end.

(** A float above 1 - 2^-10 and at most 1. *)
Definition near_one (f : spec_float) : Prop :=
  match f with
  | S754_finite false m e =>
      e <= -52 /\ 2 ^ (- e) - 2 ^ (- e - 10) < Zpos m <= 2 ^ (- e)
  | _ => False
  end.

(** ** Decision procedures for the finite checks *)

Definition all_chars : list ascii := map ascii_of_nat (seq 0 256).

Definition forall_char (p : ascii -> bool) : bool := forallb p all_chars.

(** [p] on the [n] integers from [lo] on. *)
Fixpoint check_range (p : Z -> bool) (n : nat) (lo : Z) : bool :=
  match n with
  | O => true
  | S n' => p lo && check_range p n' (lo + 1)
  end.

Definition result_eqb (r1 r2 : result Z) : bool :=
  match r1, r2 with
  | Ok a, Ok b => a =? b
  | Raise ValueError, Raise ValueError => true
  | _, _ => false
  end.

(** [float(c) * 1.0] is [c] again. *)
Definition top_exactb (c : Z) : bool :=
  match PyFloat.int_mul_float c float_one with
  | Ok (S754_zero _) => c =? 0
  | Ok (S754_finite false m e) =>
      result_eqb (PyFloat.to_int (S754_finite false m e)) (Ok c)
  | _ => false
  end.

(** The last row's channel is 255 / height or one less, positive up to
    height 254 and zero from 255 on. *)
Definition last_row_checkb (height : Z) : bool :=
  match last_row_channel height with
  | Ok c =>
      (255 / height - 1 <=? c) && (c <=? 255 / height)
      && (if height <=? 254 then 1 <=? c else c =? 0)
  | Raise _ => false
  end.

Definition font_size_checkb (length : Z) : bool :=
  result_eqb (font_size_of_length length) (Ok (2000 / (20 + Z.abs (20 - length)))).

Definition strict_upto_29b (ka : Z) : bool :=
  check_range (fun kb => implb (ka <? kb) (2000 / (20 + kb) <? 2000 / (20 + ka))) 30 0.

(** * Properties *)

(** ** Dimension normalisation *)

Ltac clamp_cases :=
  unfold clamp_nearest;
  repeat match goal with
    | |- context [?a <=? ?b] => destruct (Z.leb_spec a b)
    | |- context [?a >=? ?b] => rewrite (Z.geb_leb a b)
    | |- context [?a <? ?b] => destruct (Z.ltb_spec a b)
    end; cbn [orb].

Lemma clamp_nearest_normalized (lo hi value : Z) :
  lo < hi -> normalized lo hi value (clamp_nearest lo hi value).
Proof.
  intros Hlt. unfold normalized. clamp_cases; lia.
Qed.



(** With [lo < hi] no value outside the open interval is at the same
    distance from both bounds: the tie only occurs for [hi <= lo]. *)
Lemma clamp_nearest_no_tie (lo hi value : Z) :
  lo < hi -> value <= lo \/ hi <= value ->
  Z.abs (value - hi) <> Z.abs (value - lo).
Proof.
  lia.
Qed.

(** C1. Dimension normalisation: with configured bounds min < max, a value
    strictly between the bounds is returned unchanged, a value at or beyond
    a bound becomes the bound that is numerically closer, and the result
    always lies in [min, max]; this holds for the width against the width
    bounds and for the height against the height bounds, and normalisation
    is a total function (no input raises). *)
Theorem normalize_contract (cfg : Config) (width height : Z) :
  API_THUMBNAIL_MIN_WIDTH cfg < API_THUMBNAIL_MAX_WIDTH cfg ->
  API_THUMBNAIL_MIN_HEIGHT cfg < API_THUMBNAIL_MAX_HEIGHT cfg ->
  normalized (API_THUMBNAIL_MIN_WIDTH cfg) (API_THUMBNAIL_MAX_WIDTH cfg)
    width (normalize_width cfg width) /\
  normalized (API_THUMBNAIL_MIN_HEIGHT cfg) (API_THUMBNAIL_MAX_HEIGHT cfg)
    height (normalize_height cfg height).
Proof.
  intros Hw Hh. split; apply clamp_nearest_normalized; assumption.
Qed.

Lemma normalize_contract_witness :
  normalized 100 2000 5000 (normalize_width sample_config 5000) /\
  normalized 100 2000 1 (normalize_height sample_config 1).
Proof.
  apply (normalize_contract sample_config 5000 1); reflexivity.
Defined.



(** ** Colour strings *)

(** *** Exhaustive checks over the 256 characters *)

Lemma forall_char_spec (p : ascii -> bool) :
  forall_char p = true -> forall c, p c = true.
Proof.
  intros H c. unfold forall_char in H. rewrite forallb_forall in H.
  apply H. unfold all_chars.
  rewrite <- (ascii_nat_embedding c). apply in_map.
  apply in_seq. pose proof (nat_ascii_bounded c). lia.
Qed.

Lemma result_eqb_eq (r1 r2 : result Z) : result_eqb r1 r2 = true -> r1 = r2.
Proof.
  destruct r1 as [a | []], r2 as [b | []]; cbn; try discriminate;
    try reflexivity.
  intros H. apply Z.eqb_eq in H. now subst.
Qed.

(** A two-digit chunk reads as its byte. *)
Lemma int16_hex_byte (a b : ascii) :
  is_hex_digit a = true -> is_hex_digit b = true ->
  PyStr.int16 (chunk2 (PyStr.lower_char a) (PyStr.lower_char b)) = Ok (hex_byte a b).
Proof.
  intros Ha Hb.
  assert (H : forall_char (fun a => forall_char (fun b =>
            implb (is_hex_digit a && is_hex_digit b)
              (result_eqb
                 (PyStr.int16 (chunk2 (PyStr.lower_char a) (PyStr.lower_char b)))
                 (Ok (hex_byte a b))))) = true) by (vm_compute; reflexivity).
  pose proof (forall_char_spec _ (forall_char_spec _ H a) b) as Hab.
  cbv beta in Hab. rewrite Ha, Hb in Hab. apply result_eqb_eq, Hab.
Qed.

Lemma hex_digit_not_hash (a : ascii) :
  is_hex_digit a = true -> Ascii.eqb a "#" = false.
Proof.
  intros Ha.
  assert (H : forall_char (fun a => implb (is_hex_digit a) (negb (Ascii.eqb a "#")))
              = true) by (vm_compute; reflexivity).
  pose proof (forall_char_spec _ H a) as Hn. cbv beta in Hn.
  rewrite Ha in Hn. now destruct (Ascii.eqb a "#").
Qed.



Lemma chunk_outcomeb_spec (r : result Z) :
  chunk_outcomeb r = true -> chunk_outcome r.
Proof.
  destruct r as [v | []]; cbn; try discriminate.
  - intros H. right. exists v. split; [reflexivity | lia].
  - intros _. now left.
Qed.

Lemma int16_chunk2 (a b : ascii) : chunk_outcome (PyStr.int16 (chunk2 a b)).
Proof.
  apply chunk_outcomeb_spec.
  assert (H : forall_char (fun a => forall_char (fun b =>
            chunk_outcomeb (PyStr.int16 (chunk2 a b)))) = true)
    by (vm_compute; reflexivity).
  exact (forall_char_spec _ (forall_char_spec _ H a) b).
Qed.

Lemma int16_chunk1 (a : ascii) : chunk_outcome (PyStr.int16 (chunk1 a)).
Proof.
  apply chunk_outcomeb_spec.
  assert (H : forall_char (fun a => chunk_outcomeb (PyStr.int16 (chunk1 a))) = true)
    by (vm_compute; reflexivity).
  exact (forall_char_spec _ H a).
Qed.

Lemma int16_chunk0 : PyStr.int16 EmptyString = Raise ValueError.
Proof. reflexivity. Qed.

(** *** The random fallback *)

Lemma random_color_eq (raw : nat -> Z) (n : nat) :
  random_color raw n =
  (Ok (raw n mod 256, raw (S n) mod 256, raw (S (S n)) mod 256), S (S (S n))).
Proof. reflexivity. Qed.

Lemma random_color_is_rgb (raw : nat -> Z) (n : nat) :
  exists rgb, random_color raw n = (Ok rgb, S (S (S n))) /\ is_rgb rgb.
Proof.
  eexists. split; [apply random_color_eq |].
  pose proof (Z.mod_pos_bound (raw n) 256).
  pose proof (Z.mod_pos_bound (raw (S n)) 256).
  pose proof (Z.mod_pos_bound (raw (S (S n))) 256).
  unfold is_rgb. lia.
Qed.

(** Every RGB triple is a possible outcome of the fallback. *)
Lemma random_color_any (r g b : Z) (n : nat) :
  is_rgb (r, g, b) ->
  exists raw, random_color raw n = (Ok (r, g, b), S (S (S n))).
Proof.
  intros (Hr & Hg & Hb).
  exists (fun k => if Nat.eqb k n then r else if Nat.eqb k (S n) then g else b).
  rewrite random_color_eq.
  rewrite Nat.eqb_refl.
  replace (Nat.eqb (S n) n) with false by (symmetry; apply Nat.eqb_neq; lia).
  rewrite Nat.eqb_refl.
  replace (Nat.eqb (S (S n)) n) with false by (symmetry; apply Nat.eqb_neq; lia).
  replace (Nat.eqb (S (S n)) (S n)) with false by (symmetry; apply Nat.eqb_neq; lia).
  rewrite !Z.mod_small by lia. reflexivity.
Qed.

(** *** The two branches of the try statement *)

Lemma resolve_color_parsed (raw : nat -> Z) (s : string) (rgb : color) (n : nat) :
  hex_to_rgb (PyStr.lower (PyStr.lstrip s "#")) = Ok rgb ->
  resolve_color raw (Some s) n = (Ok rgb, n).
Proof.
  intros H. unfold resolve_color, try_except_ValueError, lift. now rewrite H.
Qed.

Lemma resolve_color_fallback (raw : nat -> Z) (s : string) (n : nat) :
  hex_to_rgb (PyStr.lower (PyStr.lstrip s "#")) = Raise ValueError ->
  resolve_color raw (Some s) n = random_color raw n.
Proof.
  intros H. unfold resolve_color, try_except_ValueError, lift. now rewrite H.
Qed.

Lemma hex_to_rgb_six_hex (s : string) (rgb : color) :
  decode_six_hex s = Some rgb ->
  PyStr.lstrip s "#" = s /\ hex_to_rgb (PyStr.lower s) = Ok rgb.
Proof.
  unfold decode_six_hex.
  destruct s as [|a [|b [|c [|d [|e [|f [|g s]]]]]]]; try discriminate.
  destruct (forallb is_hex_digit [a; b; c; d; e; f]) eqn:Hall; [|discriminate].
  intros [= <-]. cbn [forallb] in Hall.
  repeat (apply andb_true_iff in Hall; destruct Hall as [? Hall]).
  split.
  - cbn [PyStr.lstrip]. now rewrite hex_digit_not_hash.
  - unfold hex_to_rgb, PyStr.slice.
    cbn [PyStr.lower substring Nat.sub].
    fold (chunk2 (PyStr.lower_char a) (PyStr.lower_char b)).
    fold (chunk2 (PyStr.lower_char c) (PyStr.lower_char d)).
    fold (chunk2 (PyStr.lower_char e) (PyStr.lower_char f)).
    rewrite !int16_hex_byte by assumption. reflexivity.
Qed.

Lemma decode_six_hex_is_rgb (s : string) (rgb : color) :
  decode_six_hex s = Some rgb -> is_rgb rgb.
Proof.
  intros H. destruct (hex_to_rgb_six_hex s rgb H) as [_ Hp].
  unfold decode_six_hex in H.
  destruct s as [|a [|b [|c [|d [|e [|f [|g s]]]]]]]; try discriminate.
  unfold hex_to_rgb, PyStr.slice in Hp. cbn [PyStr.lower substring Nat.sub] in Hp.
  fold (chunk2 (PyStr.lower_char a) (PyStr.lower_char b)) in Hp.
  fold (chunk2 (PyStr.lower_char c) (PyStr.lower_char d)) in Hp.
  fold (chunk2 (PyStr.lower_char e) (PyStr.lower_char f)) in Hp.
  destruct (forallb is_hex_digit [a; b; c; d; e; f]) eqn:Hall; [|discriminate].
  cbn [forallb] in Hall.
  repeat (apply andb_true_iff in Hall; destruct Hall as [? Hall]).
  injection H as <-.
  assert (Hbyte : forall x y, is_hex_digit x = true -> is_hex_digit y = true ->
                              0 <= hex_byte x y <= 255).
  { intros x y Hx Hy.
    assert (Hc : forall_char (fun x => forall_char (fun y =>
              implb (is_hex_digit x && is_hex_digit y)
                ((0 <=? hex_byte x y) && (hex_byte x y <=? 255)))) = true)
      by (vm_compute; reflexivity).
    pose proof (forall_char_spec _ (forall_char_spec _ Hc x) y) as Hxy.
    cbv beta in Hxy. rewrite Hx, Hy in Hxy. cbn in Hxy. lia. }
  cbn. auto.
Qed.

(** C4. Colour decoding: a string of exactly six hexadecimal digits, with or
    without one leading hash sign, resolves to the three bytes read from
    positions 0-1, 2-3 and 4-5, whatever the case of the letters; the random
    generator is not consulted (its state is unchanged); and the top and
    the bottom colour are resolved one after the other, each from its own
    string. *)
Theorem resolve_color_six_hex (raw : nat -> Z) (n : nat) (s : string) (rgb : color) :
  spec_decode_color s = Some rgb ->
  resolve_color raw (Some s) n = (Ok rgb, n) /\
  is_rgb rgb /\
  forall s' rgb', spec_decode_color s' = Some rgb' ->
    (top_color <~ resolve_color raw (Some s) ;;
     bottom_color <~ resolve_color raw (Some s') ;;
     ret (top_color, bottom_color)) n = (Ok (rgb, rgb'), n).
Proof.
  assert (Hone : forall t c k, spec_decode_color t = Some c ->
                               resolve_color raw (Some t) k = (Ok c, k) /\ is_rgb c).
  { intros t c k. unfold spec_decode_color, strip_one_hash.
    destruct t as [|a t]; [discriminate|].
    destruct (Ascii.eqb a "#") eqn:Ha; intros H.
    - apply Ascii.eqb_eq in Ha. subst a.
      destruct (hex_to_rgb_six_hex _ _ H) as [Hs Hp].
      split; [|eapply decode_six_hex_is_rgb; eassumption].
      apply resolve_color_parsed. cbn [PyStr.lstrip].
      rewrite Ascii.eqb_refl. now rewrite Hs.
    - destruct (hex_to_rgb_six_hex _ _ H) as [Hs Hp].
      split; [|eapply decode_six_hex_is_rgb; eassumption].
      apply resolve_color_parsed. now rewrite Hs. }
  intros H. destruct (Hone s rgb n H) as [Hr Hrgb].
  repeat split; try assumption; try apply Hrgb.
  intros s' rgb' H'. unfold mbind. rewrite Hr.
  destruct (Hone s' rgb' n H') as [Hr' _]. now rewrite Hr'.
Qed.

Lemma resolve_color_six_hex_witness :
  spec_decode_color "#FF0000" = Some (255, 0, 0) /\
  resolve_color (fun _ => 0) (Some "#FF0000"%string) 0%nat = (Ok (255, 0, 0), 0%nat).
Proof.
  split; [reflexivity |].
  apply (resolve_color_six_hex (fun _ => 0) 0%nat "#FF0000" (255, 0, 0)).
  reflexivity.
Defined.

Example resolve_color_ff0000 (raw : nat -> Z) (n : nat) :
  resolve_color raw (Some "#FF0000"%string) n = (Ok (255, 0, 0), n).
Proof. reflexivity. Qed.

Example resolve_color_00ff00 (raw : nat -> Z) (n : nat) :
  resolve_color raw (Some "00ff00"%string) n = (Ok (0, 255, 0), n).
Proof. reflexivity. Qed.

(** *** Strings that are not six hexadecimal digits *)




Lemma substring_0_0 (s : string) : substring 0 0 s = EmptyString.
Proof. now destruct s. Qed.


Lemma slice2_shape (s : string) (i : nat) :
  PyStr.slice s i (i + 2) = EmptyString \/
  (exists a, PyStr.slice s i (i + 2) = chunk1 a) \/
  (exists a b, PyStr.slice s i (i + 2) = chunk2 a b).
Proof.
  unfold PyStr.slice. replace (i + 2 - i)%nat with 2%nat by lia.
  revert s. induction i as [|i IH]; intros s.
  - destruct s as [|a [|b s]]; cbn [substring].
    + now left.
    + right. left. now exists a.
    + right. right. exists a, b. now rewrite substring_0_0.
  - destruct s as [|a s]; cbn [substring]; [now left | apply IH].
Qed.

Lemma int16_slice2 (s : string) (i : nat) :
  chunk_outcome (PyStr.int16 (PyStr.slice s i (i + 2))).
Proof.
  destruct (slice2_shape s i) as [-> | [(a & ->) | (a & b & ->)]].
  - now left.
  - apply int16_chunk1.
  - apply int16_chunk2.
Qed.

Lemma hex_to_rgb_outcome (s : string) :
  hex_to_rgb s = Raise ValueError \/
  exists rgb, hex_to_rgb s = Ok rgb /\ leniently_parsed rgb.
Proof.
  unfold hex_to_rgb.
  change (PyStr.slice s 0 2) with (PyStr.slice s 0 (0 + 2)).
  change (PyStr.slice s 2 4) with (PyStr.slice s 2 (2 + 2)).
  change (PyStr.slice s 4 6) with (PyStr.slice s 4 (4 + 2)).
  destruct (int16_slice2 s 0) as [-> | (r & -> & Hr)]; [now left|].
  destruct (int16_slice2 s 2) as [-> | (g & -> & Hg)]; [now left|].
  destruct (int16_slice2 s 4) as [-> | (b & -> & Hb)]; [now left|].
  right. exists (r, g, b). cbn. auto.
Qed.

(** Colour resolution never raises: it returns the parsed triple, or the
    random one. *)
Lemma resolve_color_total (raw : nat -> Z) (c : option string) (n : nat) :
  exists rgb n', resolve_color raw c n = (Ok rgb, n') /\ leniently_parsed rgb.
Proof.
  assert (Hrand : exists rgb n', random_color raw n = (Ok rgb, n') /\ leniently_parsed rgb).
  { destruct (random_color_is_rgb raw n) as ([[r g] b] & Heq & Hrgb).
    exists (r, g, b), (S (S (S n))). split; [exact Heq|].
    unfold is_rgb in Hrgb. unfold leniently_parsed. lia. }
  destruct c as [s|]; [|exact Hrand].
  destruct (hex_to_rgb_outcome (PyStr.lower (PyStr.lstrip s "#")))
    as [H | (rgb & H & Hrgb)].
  - rewrite (resolve_color_fallback raw s n H). exact Hrand.
  - exists rgb, n. split; [now apply resolve_color_parsed | exact Hrgb].
Qed.

(** C6 (evaluation at the failing input). The string "-1-1-1" is not six
    hexadecimal digits, yet each of its chunks is accepted as a signed
    number: the resolved colour is (-1, -1, -1), which is not an RGB
    triple, and the random fallback is not taken. *)
Theorem resolve_color_signed_chunks (raw : nat -> Z) (n : nat) :
  spec_decode_color "-1-1-1" = None /\
  resolve_color raw (Some "-1-1-1"%string) n = (Ok (-1, -1, -1), n) /\
  ~ is_rgb (-1, -1, -1).
Proof.
  split; [reflexivity|]. split; [reflexivity|]. cbn. lia.
Qed.




(** ** Binary64 rounding, read on integers

    The operations of [SpecFloat] round through [binary_round_aux]; the
    lemmas below bound the magnitude of what it returns, so that a chain
    of operations is known to stay finite and of known size. *)

Lemma digits2_pos_size (p : positive) : digits2_pos p = Pos.size p.
Proof. induction p; cbn; congruence. Qed.

Lemma Zdigits2_log2 (m : Z) : 0 < m -> Zdigits2 m = Z.log2 m + 1.
Proof.
  destruct m as [|p|p]; try lia. intros _. cbn [Zdigits2].
  rewrite digits2_pos_size. destruct p; cbn; lia.
Qed.

Lemma Zdigits2_nonneg (m : Z) : 0 <= Zdigits2 m.
Proof. destruct m; cbn; lia. Qed.

Lemma Zdigits2_bounds (m : Z) :
  0 < m -> 2 ^ (Zdigits2 m - 1) <= m < 2 ^ Zdigits2 m.
Proof.
  intros H. rewrite (Zdigits2_log2 m H).
  replace (Z.log2 m + 1 - 1) with (Z.log2 m) by lia.
  apply Z.log2_spec, H.
Qed.

Lemma Zdigits2_le (m k : Z) : 0 <= k -> 0 <= m < 2 ^ k -> Zdigits2 m <= k.
Proof.
  intros Hk [H0 H].
  destruct (Z.eq_dec m 0) as [-> | Hm]; [cbn; lia|].
  rewrite Zdigits2_log2 by lia.
  assert (Z.log2 m < k) by (apply Z.log2_lt_pow2; lia). lia.
Qed.

Lemma Zdigits2_ge (m k : Z) : 2 ^ (k - 1) <= m -> 1 <= k -> k <= Zdigits2 m.
Proof.
  intros H Hk.
  assert (0 < 2 ^ (k - 1)) by (apply Z.pow_pos_nonneg; lia).
  rewrite Zdigits2_log2 by lia.
  assert (k - 1 <= Z.log2 m) by (apply Z.log2_le_pow2; lia). lia.
Qed.

Lemma shr_1_m (mrs : shr_record) :
  0 <= shr_m mrs -> shr_m (shr_1 mrs) = shr_m mrs / 2.
Proof.
  destruct mrs as [m r s]. cbn [shr_m]. intros H.
  destruct m as [|[p|p|]|p]; cbn [shr_1 shr_m]; try lia; try reflexivity.
  - rewrite Pos2Z.inj_xI. apply Z.div_unique with (r := 1); lia.
  - rewrite Pos2Z.inj_xO. apply Z.div_unique with (r := 0); lia.
Qed.

Lemma pow2_xI (p : positive) : 2 ^ Zpos p~1 = 2 * (2 ^ Zpos p * 2 ^ Zpos p).
Proof.
  rewrite (Pos2Z.inj_xI p).
  replace (2 * Zpos p + 1) with (1 + (Zpos p + Zpos p)) by lia.
  rewrite Z.pow_add_r, Z.pow_add_r by lia. now rewrite Z.pow_1_r.
Qed.

Lemma pow2_xO (p : positive) : 2 ^ Zpos p~0 = 2 ^ Zpos p * 2 ^ Zpos p.
Proof.
  rewrite (Pos2Z.inj_xO p).
  replace (2 * Zpos p) with (Zpos p + Zpos p) by lia.
  now rewrite Z.pow_add_r by lia.
Qed.

Lemma iter_shr_1_m (p : positive) (mrs : shr_record) :
  0 <= shr_m mrs -> shr_m (iter_pos shr_1 p mrs) = shr_m mrs / 2 ^ Zpos p.
Proof.
  revert mrs. induction p as [p IH | p IH |]; intros mrs H; cbn [iter_pos].
  - assert (Hp : 0 < 2 ^ Zpos p) by (apply Z.pow_pos_nonneg; lia).
    assert (H1 : 0 <= shr_m (shr_1 mrs)) by (rewrite shr_1_m by lia; apply Z.div_pos; lia).
    assert (H2 : 0 <= shr_m (iter_pos shr_1 p (shr_1 mrs)))
      by (rewrite IH by lia; apply Z.div_pos; lia).
    rewrite IH, IH, shr_1_m by lia.
    rewrite !Z.div_div by lia. now rewrite pow2_xI.
  - assert (Hp : 0 < 2 ^ Zpos p) by (apply Z.pow_pos_nonneg; lia).
    assert (H2 : 0 <= shr_m (iter_pos shr_1 p mrs))
      by (rewrite IH by lia; apply Z.div_pos; lia).
    rewrite IH, IH by lia.
    rewrite !Z.div_div by lia. now rewrite pow2_xO.
  - rewrite shr_1_m by lia. reflexivity.
Qed.

Lemma shr_record_of_loc_m (m : Z) (l : location) : shr_m (shr_record_of_loc m l) = m.
Proof. destruct l as [|[]]; reflexivity. Qed.

Lemma round_nearest_even_cases (m : Z) (l : location) :
  m <= round_nearest_even m l <= m + 1.
Proof.
  unfold round_nearest_even. destruct l as [|[]]; try lia.
  destruct (Z.even m); lia.
Qed.

(** shr_fexp never lowers the exponent; it divides the mantissa. *)
Lemma shr_fexp_spec (m e : Z) (l : location) :
  0 <= m ->
  let e' := Z.max e (fexp PyFloat.prec PyFloat.emax (Zdigits2 m + e)) in
  snd (shr_fexp PyFloat.prec PyFloat.emax m e l) = e' /\
  shr_m (fst (shr_fexp PyFloat.prec PyFloat.emax m e l)) = m / 2 ^ (e' - e).
Proof.
  intros Hm e'. unfold shr_fexp, shr.
  destruct (fexp PyFloat.prec PyFloat.emax (Zdigits2 m + e) - e) as [|p|p] eqn:En; cbn [fst snd].
  - replace (e' - e) with 0 by lia. rewrite shr_record_of_loc_m, Z.div_1_r. split; lia.
  - rewrite iter_shr_1_m by (rewrite shr_record_of_loc_m; lia).
    rewrite shr_record_of_loc_m.
    replace (e' - e) with (Zpos p) by lia. split; lia.
  - replace (e' - e) with 0 by lia. rewrite shr_record_of_loc_m, Z.div_1_r. split; lia.
Qed.

Lemma pow2_pos (k : Z) : 0 <= k -> 0 < 2 ^ k.
Proof. intros. apply Z.pow_pos_nonneg; lia. Qed.

Lemma pow2_le (a b : Z) : 0 <= a <= b -> 2 ^ a <= 2 ^ b.
Proof. intros. apply Z.pow_le_mono_r; lia. Qed.

Lemma pow2_lt (a b : Z) : 0 <= a < b -> 2 ^ a < 2 ^ b.
Proof. intros. apply Z.pow_lt_mono_r; lia. Qed.

Lemma Zdigits2_pow2 (k : Z) : 0 <= k -> Zdigits2 (2 ^ k) = k + 1.
Proof.
  intros Hk. rewrite Zdigits2_log2 by (apply pow2_pos; lia).
  rewrite Z.log2_pow2 by lia. lia.
Qed.

(** The rounding step, read on integers: the mantissa is divided by the
    power of two that brings it to 53 bits (or to the least exponent),
    then moved by at most one unit, and renormalised when it reaches
    2^53. *)
Lemma binary_round_aux_spec (s : bool) (mx ex : Z) (lx : location) :
  0 <= mx ->
  let e1 := Z.max ex (fexp PyFloat.prec PyFloat.emax (Zdigits2 mx + ex)) in
  let m' := mx / 2 ^ (e1 - ex) in
  exists m2 e2,
    0 <= m2 < 2 ^ 53 /\ e1 <= e2 <= e1 + 1 /\
    m' <= m2 * 2 ^ (e2 - e1) <= m' + 1 /\
    binary_round_aux PyFloat.prec PyFloat.emax s mx ex lx =
      match m2 with
      | Z0 => S754_zero s
      | Zpos m => if e2 <=? PyFloat.emax - PyFloat.prec then S754_finite s m e2 else S754_infinity s
      | Zneg _ => S754_nan
      end.
Proof.
  intros Hmx e1 m'.
  assert (Hd := Zdigits2_nonneg mx).
  assert (He1 : -1074 <= e1 /\ ex <= e1 /\ Zdigits2 mx + ex - 53 <= e1)
    by (unfold e1, fexp, emin, PyFloat.prec, PyFloat.emax; lia).
  assert (Hm' : 0 <= m' < 2 ^ 53).
  { unfold m'. split; [apply Z.div_pos; [lia | apply pow2_pos; lia]|].
    apply Z.div_lt_upper_bound; [apply pow2_pos; lia|].
    rewrite <- Z.pow_add_r by lia.
    destruct (Z.eq_dec mx 0) as [-> | Hnz]; [apply pow2_pos; lia|].
    apply Z.lt_le_trans with (2 ^ Zdigits2 mx); [apply Zdigits2_bounds; lia|].
    apply pow2_le. lia. }
  unfold binary_round_aux.
  destruct (shr_fexp_spec mx ex lx Hmx) as [Hs1 Hs2].
  destruct (shr_fexp PyFloat.prec PyFloat.emax mx ex lx) as [mrs' e'] eqn:E1.
  cbn [fst snd] in Hs1, Hs2. fold e1 in Hs1, Hs2. fold m' in Hs2. subst e'.
  pose proof (round_nearest_even_cases (shr_m mrs') (loc_of_shr_record mrs')) as Hr.
  set (m1 := round_nearest_even (shr_m mrs') (loc_of_shr_record mrs')) in *.
  rewrite Hs2 in Hr.
  assert (Hm1 : 0 <= m1) by lia.
  destruct (shr_fexp_spec m1 e1 loc_Exact Hm1) as [Ht1 Ht2].
  destruct (shr_fexp PyFloat.prec PyFloat.emax m1 e1 loc_Exact) as [mrs'' e''] eqn:E2.
  cbn [fst snd] in Ht1, Ht2. rewrite <- Ht1 in Ht2. rewrite Ht2.
  destruct (Z.eq_dec m1 (2 ^ 53)) as [Heq | Hne].
  - (* the mantissa reached 2^53: one more shift *)
    assert (Hdig : Zdigits2 m1 = 54) by (rewrite Heq; reflexivity).
    assert (He'' : e'' = e1 + 1)
      by (rewrite Ht1, Hdig; unfold fexp, emin, PyFloat.prec, PyFloat.emax; lia).
    exists (2 ^ 52), e''.
    replace (e'' - e1) with 1 by lia.
    replace (m1 / 2 ^ 1) with (2 ^ 52) by (rewrite Heq; reflexivity).
    change (2 ^ 52 * 2 ^ 1) with (2 ^ 53). rewrite <- Heq.
    repeat split; try lia.
  - assert (Hlt : m1 < 2 ^ 53) by lia.
    assert (Hdig : Zdigits2 m1 <= 53) by (apply Zdigits2_le; lia).
    assert (He'' : e'' = e1)
      by (rewrite Ht1; unfold fexp, emin, PyFloat.prec, PyFloat.emax; lia).
    exists m1, e''.
    replace (e'' - e1) with 0 by lia.
    rewrite Z.pow_0_r, Z.div_1_r, Z.mul_1_r.
    repeat split; try lia.
Qed.

Lemma Zdigits2_mono (a b : Z) : 0 <= a <= b -> Zdigits2 a <= Zdigits2 b.
Proof.
  intros [Ha Hab].
  destruct (Z.eq_dec a 0) as [-> | Hnz]; [apply Zdigits2_nonneg|].
  rewrite !Zdigits2_log2 by lia.
  assert (Z.log2 a <= Z.log2 b) by (apply Z.log2_le_mono; lia). lia.
Qed.

Lemma Zdigits2_mul_pow2 (a k : Z) :
  0 < a -> 0 <= k -> Zdigits2 (a * 2 ^ k) = Zdigits2 a + k.
Proof.
  intros Ha Hk. assert (0 < 2 ^ k) by (apply pow2_pos; lia).
  rewrite !Zdigits2_log2 by nia.
  rewrite Z.log2_mul_pow2 by lia. lia.
Qed.

Lemma Zdigits2_succ (a : Z) : 0 <= a -> Zdigits2 (a + 1) <= Zdigits2 a + 1.
Proof.
  intros Ha. destruct (Z.eq_dec a 0) as [-> | Hnz]; [cbn; lia|].
  apply Zdigits2_le; [pose proof (Zdigits2_nonneg a); lia|].
  pose proof (Zdigits2_bounds a ltac:(lia)) as [_ Hb].
  rewrite Z.pow_add_r by (pose proof (Zdigits2_nonneg a); lia).
  change (2 ^ 1) with 2. lia.
Qed.

Lemma Zdigits2_div_pow2_le (a n : Z) :
  0 <= a -> 0 <= n -> Zdigits2 (a / 2 ^ n) <= Z.max 0 (Zdigits2 a - n).
Proof.
  intros Ha Hn. assert (Hp := pow2_pos n Hn).
  destruct (Z.eq_dec a 0) as [-> | Hnz].
  { rewrite Z.div_0_l by lia. cbn. lia. }
  pose proof (Zdigits2_bounds a ltac:(lia)) as [_ Hb].
  pose proof (Zdigits2_nonneg a) as Hd.
  apply Zdigits2_le; [lia|].
  split; [apply Z.div_pos; lia|].
  apply Z.div_lt_upper_bound; [lia|].
  rewrite <- Z.pow_add_r by lia.
  apply Z.lt_le_trans with (2 ^ Zdigits2 a); [lia|]. apply pow2_le. lia.
Qed.

Lemma Zdigits2_div_pow2_ge (a n : Z) :
  0 < a -> 0 <= n < Zdigits2 a -> Zdigits2 a - n <= Zdigits2 (a / 2 ^ n).
Proof.
  intros Ha Hn. assert (Hp := pow2_pos n ltac:(lia)).
  pose proof (Zdigits2_bounds a Ha) as [Hb _].
  apply Zdigits2_ge; [|lia].
  apply Z.div_le_lower_bound; [lia|].
  rewrite <- Z.pow_add_r by lia.
  replace (n + (Zdigits2 a - n - 1)) with (Zdigits2 a - 1) by lia. lia.
Qed.

Lemma Zdigits2_mul (a b : Z) :
  0 < a -> 0 < b ->
  Zdigits2 a + Zdigits2 b - 1 <= Zdigits2 (a * b) <= Zdigits2 a + Zdigits2 b.
Proof.
  intros Ha Hb.
  pose proof (Zdigits2_bounds a Ha) as [Ha1 Ha2].
  pose proof (Zdigits2_bounds b Hb) as [Hb1 Hb2].
  assert (Hda : 1 <= Zdigits2 a) by (rewrite Zdigits2_log2 by lia; pose proof (Z.log2_nonneg a); lia).
  assert (Hdb : 1 <= Zdigits2 b) by (rewrite Zdigits2_log2 by lia; pose proof (Z.log2_nonneg b); lia).
  split.
  - apply Zdigits2_ge; [|lia].
    replace (Zdigits2 a + Zdigits2 b - 1 - 1) with ((Zdigits2 a - 1) + (Zdigits2 b - 1)) by lia.
    rewrite Z.pow_add_r by lia.
    assert (0 < 2 ^ (Zdigits2 a - 1)) by (apply pow2_pos; lia).
    assert (0 < 2 ^ (Zdigits2 b - 1)) by (apply pow2_pos; lia). nia.
  - apply Zdigits2_le; [lia|]. rewrite Z.pow_add_r by lia. nia.
Qed.

Lemma Zdigits2_add (a b : Z) :
  0 <= a -> 0 <= b -> Zdigits2 (a + b) <= Z.max (Zdigits2 a) (Zdigits2 b) + 1.
Proof.
  intros Ha Hb.
  pose proof (Zdigits2_nonneg a). pose proof (Zdigits2_nonneg b).
  assert (Hlt : forall x, 0 <= x -> x < 2 ^ Zdigits2 x).
  { intros x Hx. destruct (Z.eq_dec x 0) as [-> | ?]; [cbn; lia|].
    apply Zdigits2_bounds. lia. }
  apply Zdigits2_le; [lia|]. split; [lia|].
  rewrite Z.pow_add_r by lia. change (2 ^ 1) with 2.
  pose proof (Hlt a Ha). pose proof (Hlt b Hb).
  assert (2 ^ Zdigits2 a <= 2 ^ Z.max (Zdigits2 a) (Zdigits2 b)) by (apply pow2_le; lia).
  assert (2 ^ Zdigits2 b <= 2 ^ Z.max (Zdigits2 a) (Zdigits2 b)) by (apply pow2_le; lia).
  lia.
Qed.

Lemma Zdigits2_pos (a : Z) : 0 < a -> 1 <= Zdigits2 a.
Proof.
  intros Ha. rewrite Zdigits2_log2 by lia. pose proof (Z.log2_nonneg a). lia.
Qed.

Lemma Zdigits2_abs (a : Z) : Zdigits2 (Z.abs a) = Zdigits2 a.
Proof. destruct a; reflexivity. Qed.

Lemma mag_le_weaken (K K' : Z) (f : spec_float) : K <= K' -> mag_le K f -> mag_le K' f.
Proof. destruct f; cbn; lia. Qed.

Lemma mag_in_le (lo hi : Z) (f : spec_float) : mag_in lo hi f -> mag_le hi f.
Proof. destruct f as [| | |[] m e]; cbn; lia. Qed.

Lemma round_aux_upper (s : bool) (mx ex : Z) (lx : location) (K : Z) :
  0 <= mx -> Zdigits2 mx + ex <= K -> -1074 <= K <= 970 ->
  mag_le (K + 1) (binary_round_aux PyFloat.prec PyFloat.emax s mx ex lx) /\
  (s = false -> nonneg (binary_round_aux PyFloat.prec PyFloat.emax s mx ex lx)).
Proof.
  intros Hmx HK HKr.
  destruct (binary_round_aux_spec s mx ex lx Hmx) as (m2 & e2 & Hm2 & He2 & HM & ->).
  cbv zeta in *.
  set (e1 := Z.max ex (fexp PyFloat.prec PyFloat.emax (Zdigits2 mx + ex))) in *.
  assert (Hd := Zdigits2_nonneg mx).
  assert (He1 : ex <= e1 /\ e1 <= K)
    by (unfold e1, fexp, emin, PyFloat.prec, PyFloat.emax; lia).
  destruct m2 as [|m|m]; [cbn; auto | | lia].
  assert (Hfin : (e2 <=? PyFloat.emax - PyFloat.prec) = true)
    by (apply Z.leb_le; unfold PyFloat.prec, PyFloat.emax; lia).
  rewrite Hfin. cbn [mag_le nonneg]. split; [|auto].
  rewrite <- (Z.sub_add e1 e2), Z.add_assoc.
  rewrite <- (Zdigits2_mul_pow2 (Zpos m) (e2 - e1)) by lia.
  pose proof (Zdigits2_div_pow2_le mx (e1 - ex) Hmx ltac:(lia)) as Hq.
  assert (Hq0 : 0 <= mx / 2 ^ (e1 - ex)) by (apply Z.div_pos; [lia | apply pow2_pos; lia]).
  pose proof (Zdigits2_succ _ Hq0) as Hs.
  assert (Hmono : Zdigits2 (Zpos m * 2 ^ (e2 - e1)) <= Zdigits2 (mx / 2 ^ (e1 - ex) + 1)).
  { apply Zdigits2_mono. split; [|lia].
    assert (0 < 2 ^ (e2 - e1)) by (apply pow2_pos; lia). nia. }
  lia.
Qed.

Lemma round_aux_normal (s : bool) (mx ex : Z) (lx : location) :
  0 < mx -> -1021 <= Zdigits2 mx + ex <= 970 ->
  exists m e,
    binary_round_aux PyFloat.prec PyFloat.emax s mx ex lx = S754_finite s m e /\
    Zdigits2 mx + ex <= Zdigits2 (Zpos m) + e <= Zdigits2 mx + ex + 1.
Proof.
  intros Hmx Hr.
  destruct (round_aux_upper s mx ex lx (Zdigits2 mx + ex) ltac:(lia) ltac:(lia) ltac:(lia))
    as [Hup _].
  destruct (binary_round_aux_spec s mx ex lx ltac:(lia)) as (m2 & e2 & Hm2 & He2 & HM & Heq).
  cbv zeta in *. rewrite Heq in *. clear Heq.
  set (e1 := Z.max ex (fexp PyFloat.prec PyFloat.emax (Zdigits2 mx + ex))) in *.
  assert (Hd := Zdigits2_pos mx Hmx).
  assert (He1 : ex <= e1 /\ e1 - ex < Zdigits2 mx /\ e1 <= 970)
    by (unfold e1, fexp, emin, PyFloat.prec, PyFloat.emax; lia).
  pose proof (Zdigits2_div_pow2_ge mx (e1 - ex) Hmx ltac:(lia)) as Hq.
  assert (Hq1 : 1 <= mx / 2 ^ (e1 - ex)).
  { assert (H1 : 1 <= Zdigits2 (mx / 2 ^ (e1 - ex))) by lia.
    assert (H0 : 0 <= mx / 2 ^ (e1 - ex)) by (apply Z.div_pos; [lia | apply pow2_pos; lia]).
    destruct (Z.eq_dec (mx / 2 ^ (e1 - ex)) 0) as [E | E]; [|lia].
    rewrite E in H1. cbn in H1. lia. }
  assert (Hp : 0 < 2 ^ (e2 - e1)) by (apply pow2_pos; lia).
  destruct m2 as [|m|m]; [lia | | lia].
  assert (Hfin : (e2 <=? PyFloat.emax - PyFloat.prec) = true)
    by (apply Z.leb_le; unfold PyFloat.prec, PyFloat.emax; lia).
  rewrite Hfin in *. exists m, e2. split; [reflexivity|].
  cbn [mag_le] in Hup. split; [|lia].
  rewrite <- (Z.sub_add e1 e2), Z.add_assoc.
  rewrite <- (Zdigits2_mul_pow2 (Zpos m) (e2 - e1)) by lia.
  assert (Zdigits2 (mx / 2 ^ (e1 - ex)) <= Zdigits2 (Zpos m * 2 ^ (e2 - e1)))
    by (apply Zdigits2_mono; lia).
  lia.
Qed.

Lemma iter_xO_pow2 (m d : positive) : Zpos (Pos.iter xO m d) = Zpos m * 2 ^ Zpos d.
Proof.
  induction d as [|d IH] using Pos.peano_ind.
  - cbn [Pos.iter]. rewrite (Pos2Z.inj_xO m). change (2 ^ 1) with 2. lia.
  - rewrite Pos.iter_succ, (Pos2Z.inj_xO (Pos.iter xO m d)), IH.
    rewrite Pos2Z.inj_succ, Z.pow_succ_r by lia. ring.
Qed.

Lemma shl_align_spec (mx : positive) (ex ex' : Z) :
  let '(mz, ez) := shl_align mx ex ex' in
  ez <= ex /\ ez = Z.min ex ex' /\ Zpos mz = Zpos mx * 2 ^ (ex - ez).
Proof.
  unfold shl_align. destruct (ex' - ex) as [|d|d] eqn:E.
  - replace (ex - ex) with 0 by lia. cbn. lia.
  - replace (ex - ex) with 0 by lia. cbn. lia.
  - rewrite iter_xO_pow2. replace (ex - ex') with (Zpos d) by lia. lia.
Qed.

Lemma shl_align_digits (mx : positive) (ex ex' : Z) :
  Zdigits2 (Zpos (fst (shl_align mx ex ex'))) + snd (shl_align mx ex ex')
  = Zdigits2 (Zpos mx) + ex.
Proof.
  pose proof (shl_align_spec mx ex ex') as H.
  destruct (shl_align mx ex ex') as [mz ez]. cbn [fst snd].
  destruct H as (H1 & _ & ->). rewrite Zdigits2_mul_pow2 by lia. lia.
Qed.

Lemma binary_round_upper (s : bool) (m : positive) (e K : Z) :
  Zdigits2 (Zpos m) + e <= K -> -1074 <= K <= 970 ->
  mag_le (K + 1) (binary_round PyFloat.prec PyFloat.emax s m e) /\
  (s = false -> nonneg (binary_round PyFloat.prec PyFloat.emax s m e)).
Proof.
  intros HK Hr. unfold binary_round.
  pose proof (shl_align_digits m e (fexp PyFloat.prec PyFloat.emax (Zpos (digits2_pos m) + e))) as Hd.
  destruct (shl_align m e (fexp PyFloat.prec PyFloat.emax (Zpos (digits2_pos m) + e))) as [mz ez].
  cbn [fst snd] in Hd. apply round_aux_upper; lia.
Qed.

Lemma binary_round_normal (s : bool) (m : positive) (e : Z) :
  -1021 <= Zdigits2 (Zpos m) + e <= 970 ->
  exists m' e',
    binary_round PyFloat.prec PyFloat.emax s m e = S754_finite s m' e' /\
    Zdigits2 (Zpos m) + e <= Zdigits2 (Zpos m') + e' <= Zdigits2 (Zpos m) + e + 1.
Proof.
  intros Hr. unfold binary_round.
  pose proof (shl_align_digits m e (fexp PyFloat.prec PyFloat.emax (Zpos (digits2_pos m) + e))) as Hd.
  destruct (shl_align m e (fexp PyFloat.prec PyFloat.emax (Zpos (digits2_pos m) + e))) as [mz ez].
  cbn [fst snd] in Hd. rewrite <- Hd.
  apply round_aux_normal; lia.
Qed.

Lemma binary_normalize_upper (z e K : Z) :
  Zdigits2 z + e <= K -> -1074 <= K <= 970 ->
  mag_le (K + 1) (binary_normalize PyFloat.prec PyFloat.emax z e false) /\
  (0 <= z -> nonneg (binary_normalize PyFloat.prec PyFloat.emax z e false)).
Proof.
  intros HK Hr. destruct z as [|m|m]; cbn [binary_normalize].
  - cbn. auto.
  - destruct (binary_round_upper false m e K HK Hr). auto.
  - destruct (binary_round_upper true m e K HK Hr). split; [auto | lia].
Qed.

Lemma binary_normalize_normal (z e : Z) :
  0 < z -> -1021 <= Zdigits2 z + e <= 970 ->
  mag_in (Zdigits2 z + e) (Zdigits2 z + e + 1) (binary_normalize PyFloat.prec PyFloat.emax z e false).
Proof.
  intros Hz Hr. destruct z as [|m|m]; try lia. cbn [binary_normalize].
  destruct (binary_round_normal false m e Hr) as (m' & e' & -> & H). exact H.
Qed.

(** *** The operations *)

Lemma of_int_upper (z K : Z) :
  Zdigits2 z <= K -> 0 <= K <= 970 ->
  exists f, PyFloat.of_int z = Ok f /\ mag_le (K + 1) f /\ (0 <= z -> nonneg f).
Proof.
  intros HK Hr. unfold PyFloat.of_int.
  destruct (binary_normalize_upper z 0 K ltac:(lia) ltac:(lia)) as [H1 H2].
  destruct (binary_normalize PyFloat.prec PyFloat.emax z 0 false) eqn:E; cbn [mag_le mag_in] in H1; try contradiction;
    eexists; (split; [reflexivity | split; [exact H1 | exact H2]]).
Qed.

Lemma of_int_normal (z : Z) :
  0 < z -> Zdigits2 z <= 970 ->
  exists f, PyFloat.of_int z = Ok f /\ mag_in (Zdigits2 z) (Zdigits2 z + 1) f.
Proof.
  intros Hz Hr. unfold PyFloat.of_int.
  pose proof (Zdigits2_pos z Hz).
  pose proof (binary_normalize_normal z 0 Hz ltac:(lia)) as H1.
  rewrite Z.add_0_r in H1.
  destruct (binary_normalize PyFloat.prec PyFloat.emax z 0 false) as [| | |[] m e] eqn:E;
    cbn [mag_le mag_in] in H1; try contradiction.
  eexists. split; [reflexivity | exact H1].
Qed.

Lemma mul_upper (x y : spec_float) (K1 K2 : Z) :
  mag_le K1 x -> mag_le K2 y -> -1074 <= K1 + K2 <= 970 ->
  mag_le (K1 + K2 + 1) (PyFloat.mul x y) /\
  (nonneg x -> nonneg y -> nonneg (PyFloat.mul x y)).
Proof.
  intros Hx Hy Hr. unfold PyFloat.mul.
  destruct x as [sx| | |sx mx ex], y as [sy| | |sy my ey]; cbn [mag_le mag_in] in Hx, Hy; try contradiction;
    cbn [SFmul]; try (cbn; split; [exact I | auto]).
  pose proof (Zdigits2_mul (Zpos mx) (Zpos my) ltac:(lia) ltac:(lia)) as Hd.
  destruct (round_aux_upper (xorb sx sy) (Zpos (mx * my)) (ex + ey) loc_Exact (K1 + K2))
    as [H1 H2]; try lia.
  { rewrite Pos2Z.inj_mul. lia. }
  split; [exact H1|]. cbn [nonneg]. intros -> ->. apply H2. reflexivity.
Qed.

Lemma mul_normal (x y : spec_float) (a b c d : Z) :
  mag_in a b x -> mag_in c d y -> -1020 <= a + c -> b + d <= 970 ->
  mag_in (a + c - 1) (b + d + 1) (PyFloat.mul x y).
Proof.
  intros Hx Hy Hlo Hhi. unfold PyFloat.mul.
  destruct x as [| | |[] mx ex], y as [| | |[] my ey]; cbn [mag_le mag_in] in Hx, Hy; try contradiction.
  cbn [SFmul xorb].
  pose proof (Zdigits2_mul (Zpos mx) (Zpos my) ltac:(lia) ltac:(lia)) as Hd.
  rewrite <- Pos2Z.inj_mul in Hd.
  destruct (round_aux_normal false (Zpos (mx * my)) (ex + ey) loc_Exact)
    as (m & e & -> & H); try lia.
  cbn [mag_in]. lia.
Qed.

Lemma aligned_digits (mx : positive) (ex ey : Z) :
  Zdigits2 (Zpos (fst (shl_align mx ex (Z.min ex ey)))) + Z.min ex ey
  = Zdigits2 (Zpos mx) + ex.
Proof.
  pose proof (shl_align_spec mx ex (Z.min ex ey)) as H.
  destruct (shl_align mx ex (Z.min ex ey)) as [mz ez]. cbn [fst].
  destruct H as (H1 & H2 & ->). rewrite Zdigits2_mul_pow2 by lia. lia.
Qed.

Lemma cond_Zopp_abs (s : bool) (z : Z) : Z.abs (cond_Zopp s z) = Z.abs z.
Proof. destruct s; cbn [cond_Zopp]; lia. Qed.

(** The sum or difference of two aligned mantissas. *)
Lemma combine_upper (z : Z) (A B : positive) (ez K1 K2 : Z) :
  Z.abs z <= Zpos A + Zpos B ->
  Zdigits2 (Zpos A) + ez <= K1 -> Zdigits2 (Zpos B) + ez <= K2 ->
  -1075 <= Z.max K1 K2 <= 969 ->
  mag_le (Z.max K1 K2 + 2) (binary_normalize PyFloat.prec PyFloat.emax z ez false) /\
  (0 <= z -> nonneg (binary_normalize PyFloat.prec PyFloat.emax z ez false)).
Proof.
  intros Hz HA HB Hr.
  pose proof (Zdigits2_add (Zpos A) (Zpos B) ltac:(lia) ltac:(lia)) as Hadd.
  pose proof (Zdigits2_mono (Z.abs z) (Zpos A + Zpos B) ltac:(lia)) as Hm.
  rewrite Zdigits2_abs in Hm.
  replace (Z.max K1 K2 + 2) with (Z.max K1 K2 + 1 + 1) by lia.
  apply binary_normalize_upper; lia.
Qed.

Lemma add_upper (x y : spec_float) (K1 K2 : Z) :
  mag_le K1 x -> mag_le K2 y -> -1075 <= Z.max K1 K2 <= 969 ->
  mag_le (Z.max K1 K2 + 2) (PyFloat.add x y) /\
  (nonneg x -> nonneg y -> nonneg (PyFloat.add x y)).
Proof.
  intros Hx Hy Hr. unfold PyFloat.add.
  destruct x as [sx| | |sx mx ex], y as [sy| | |sy my ey];
    cbn [mag_le] in Hx, Hy; try contradiction; cbn [SFadd].
  - destruct sx, sy; cbn; auto.
  - cbn [mag_le nonneg]. split; [lia | auto].
  - cbn [mag_le nonneg]. split; [lia | auto].
  - pose proof (aligned_digits mx ex ey) as Hdx.
    pose proof (aligned_digits my ey ex) as Hdy. rewrite (Z.min_comm ey ex) in Hdy.
    set (A := fst (shl_align mx ex (Z.min ex ey))) in *.
    set (B := fst (shl_align my ey (Z.min ex ey))) in *.
    destruct (combine_upper (cond_Zopp sx (Zpos A) + cond_Zopp sy (Zpos B)) A B
                (Z.min ex ey) K1 K2) as [H1 H2]; try lia.
    { destruct sx, sy; cbn [cond_Zopp]; lia. }
    split; [exact H1|]. cbn [nonneg]. intros -> ->. apply H2. cbn [cond_Zopp]. lia.
Qed.

Lemma sub_upper (x y : spec_float) (K1 K2 : Z) :
  mag_le K1 x -> mag_le K2 y -> -1075 <= Z.max K1 K2 <= 969 ->
  mag_le (Z.max K1 K2 + 2) (PyFloat.sub x y).
Proof.
  intros Hx Hy Hr. unfold PyFloat.sub.
  destruct x as [sx| | |sx mx ex], y as [sy| | |sy my ey];
    cbn [mag_le] in Hx, Hy; try contradiction; cbn [SFsub].
  - destruct sx, sy; cbn; auto.
  - cbn [mag_le]. lia.
  - cbn [mag_le]. lia.
  - pose proof (aligned_digits mx ex ey) as Hdx.
    pose proof (aligned_digits my ey ex) as Hdy. rewrite (Z.min_comm ey ex) in Hdy.
    set (A := fst (shl_align mx ex (Z.min ex ey))) in *.
    set (B := fst (shl_align my ey (Z.min ex ey))) in *.
    destruct (combine_upper (cond_Zopp sx (Zpos A) - cond_Zopp sy (Zpos B)) A B
                (Z.min ex ey) K1 K2) as [H1 H2]; try lia.
    { destruct sx, sy; cbn [cond_Zopp]; lia. }
    exact H1.
Qed.

Lemma add_normal (x y : spec_float) (a b c d : Z) :
  mag_in a b x -> mag_in c d y -> -1021 <= Z.max a c -> Z.max b d <= 969 ->
  mag_in (Z.max a c) (Z.max b d + 2) (PyFloat.add x y).
Proof.
  intros Hx Hy Hlo Hhi. unfold PyFloat.add.
  destruct x as [| | |[] mx ex], y as [| | |[] my ey];
    cbn [mag_in] in Hx, Hy; try contradiction.
  cbn [SFadd cond_Zopp].
  pose proof (aligned_digits mx ex ey) as Hdx.
  pose proof (aligned_digits my ey ex) as Hdy. rewrite (Z.min_comm ey ex) in Hdy.
  set (A := fst (shl_align mx ex (Z.min ex ey))) in *.
  set (B := fst (shl_align my ey (Z.min ex ey))) in *.
  pose proof (Zdigits2_add (Zpos A) (Zpos B) ltac:(lia) ltac:(lia)) as Hadd.
  pose proof (Zdigits2_mono (Zpos A) (Zpos A + Zpos B) ltac:(lia)) as HmA.
  pose proof (Zdigits2_mono (Zpos B) (Zpos A + Zpos B) ltac:(lia)) as HmB.
  pose proof (binary_normalize_normal (Zpos A + Zpos B) (Z.min ex ey) ltac:(lia) ltac:(lia)) as H.
  destruct (binary_normalize PyFloat.prec PyFloat.emax (Zpos A + Zpos B) (Z.min ex ey) false)
    as [| | |[] m e]; cbn [mag_in] in H |- *; try contradiction. lia.
Qed.

Lemma div_core_upper (m1 e1 m2 e2 : Z) :
  0 < m1 -> 0 < m2 ->
  let '(q, e', l) := SFdiv_core_binary PyFloat.prec PyFloat.emax m1 e1 m2 e2 in
  0 <= q /\
  Zdigits2 q + e' <= Z.max (Zdigits2 m1 + e1 - (Zdigits2 m2 + e2) + 1) (-1074).
Proof.
  intros H1 H2. unfold SFdiv_core_binary.
  set (e' := Z.min (fexp PyFloat.prec PyFloat.emax (Zdigits2 m1 + e1 - (Zdigits2 m2 + e2))) (e1 - e2)).
  remember (e1 - e2 - e') as s eqn:Es.
  assert (Hs : 0 <= s) by (unfold e' in Es; lia).
  assert (He' : e' <= Z.max (Zdigits2 m1 + e1 - (Zdigits2 m2 + e2) - 53) (-1074))
    by (unfold e', fexp, emin, PyFloat.prec, PyFloat.emax; lia).
  set (m' := match s with Z.pos _ => Z.shiftl m1 s | 0 => m1 | Z.neg _ => 0 end).
  assert (Hm' : m' = m1 * 2 ^ s).
  { unfold m'. clear m' Es. destruct s as [|p|p]; try lia.
    apply Z.shiftl_mul_pow2. lia. }
  pose proof (Z_div_mod m' m2 ltac:(lia)) as Hdm.
  destruct (Z.div_eucl m' m2) as [q r] eqn:E.
  assert (Hq : q = m' / m2) by (unfold Z.div; now rewrite E).
  assert (Hp := pow2_pos s Hs).
  assert (Hq0 : 0 <= q) by (rewrite Hq; apply Z.div_pos; nia).
  split; [exact Hq0|].
  destruct (Z.eq_dec q 0) as [-> | Hnz]; [cbn [Zdigits2]; lia|].
  pose proof (Zdigits2_bounds m1 H1) as [_ Hb1].
  pose proof (Zdigits2_bounds m2 H2) as [Hb2 _].
  pose proof (Zdigits2_pos m1 H1). pose proof (Zdigits2_pos m2 H2).
  assert (Hm'lt : m' < 2 ^ (Zdigits2 m1 + s)).
  { rewrite Hm', Z.pow_add_r by lia. nia. }
  destruct (Z_le_gt_dec 0 (Zdigits2 m1 + s - Zdigits2 m2 + 1)) as [Hge | Hlt].
  - assert (Hqlt : q < 2 ^ (Zdigits2 m1 + s - Zdigits2 m2 + 1)).
    { rewrite Hq. apply Z.div_lt_upper_bound; [lia|].
      apply Z.lt_le_trans with (2 ^ (Zdigits2 m2 - 1) * 2 ^ (Zdigits2 m1 + s - Zdigits2 m2 + 1)).
      - rewrite <- Z.pow_add_r by lia.
        replace (Zdigits2 m2 - 1 + (Zdigits2 m1 + s - Zdigits2 m2 + 1)) with (Zdigits2 m1 + s) by lia.
        exact Hm'lt.
      - apply Z.mul_le_mono_nonneg_r; [apply Z.lt_le_incl, pow2_pos; lia | lia]. }
    pose proof (Zdigits2_le q _ Hge ltac:(lia)). lia.
  - exfalso. apply Hnz. rewrite Hq. apply Z.div_small. split; [nia|].
    apply Z.lt_le_trans with (2 ^ (Zdigits2 m1 + s)); [exact Hm'lt|].
    apply Z.le_trans with (2 ^ (Zdigits2 m2 - 1)); [apply pow2_le; lia | lia].
Qed.

Lemma int_truediv_upper (y h : Z) :
  0 <= y < h ->
  exists r, PyFloat.int_truediv y h = Ok r /\ mag_le 2 r /\ nonneg r.
Proof.
  intros Hyh. unfold PyFloat.int_truediv.
  replace (h =? 0) with false by (symmetry; apply Z.eqb_neq; lia).
  replace (y <? 0) with false by (symmetry; apply Z.ltb_ge; lia).
  replace (h <? 0) with false by (symmetry; apply Z.ltb_ge; lia).
  cbn [xorb].
  destruct (Z.eqb_spec y 0) as [-> | Hy0].
  { eexists. split; [reflexivity|]. cbn. auto. }
  rewrite (Z.abs_eq y), (Z.abs_eq h) by lia.
  pose proof (div_core_upper y 0 h 0 ltac:(lia) ltac:(lia)) as Hc.
  destruct (SFdiv_core_binary PyFloat.prec PyFloat.emax y 0 h 0) as [[q e] l].
  destruct Hc as [Hq0 Hqd].
  pose proof (Zdigits2_mono y h ltac:(lia)) as Hm.
  destruct (round_aux_upper false q e l 1 Hq0 ltac:(lia) ltac:(lia)) as [H1 H2].
  specialize (H2 eq_refl).
  destruct (binary_round_aux PyFloat.prec PyFloat.emax false q e l) eqn:E;
    cbn [mag_le] in H1; try contradiction;
    (eexists; split; [reflexivity | split; [exact H1 | exact H2]]).
Qed.

Lemma to_int_total (K : Z) (f : spec_float) :
  mag_le K f -> exists z, PyFloat.to_int f = Ok z.
Proof.
  destruct f; cbn [mag_le PyFloat.to_int]; try contradiction; eauto.
Qed.

Lemma to_int_small (f : spec_float) : mag_le 0 f -> PyFloat.to_int f = Ok 0.
Proof.
  destruct f as [| | |s m e]; cbn [mag_le PyFloat.to_int]; try contradiction; [reflexivity|].
  intros H. pose proof (Zdigits2_pos (Zpos m) ltac:(lia)) as Hd.
  pose proof (Zdigits2_bounds (Zpos m) ltac:(lia)) as [_ Hb].
  destruct e as [|p|p]; try lia.
  rewrite Z.shiftr_div_pow2 by lia.
  rewrite Z.div_small; [now destruct s|].
  split; [lia|]. apply Z.lt_le_trans with (2 ^ Zdigits2 (Zpos m)); [lia|].
  apply pow2_le. lia.
Qed.

Lemma truediv_upper (x y : spec_float) (a b c d : Z) :
  mag_in a b x -> mag_in c d y -> b - c <= 968 ->
  exists f, PyFloat.truediv x y = Ok f /\
            mag_le (Z.max (b - c + 1) (-1074) + 1) f /\ nonneg f.
Proof.
  intros Hx Hy Hr. unfold PyFloat.truediv.
  destruct x as [| | |[] mx ex], y as [| | |[] my ey];
    cbn [mag_in] in Hx, Hy; try contradiction.
  eexists. split; [reflexivity|]. cbn [SFdiv xorb].
  pose proof (div_core_upper (Zpos mx) ex (Zpos my) ey ltac:(lia) ltac:(lia)) as Hc.
  destruct (SFdiv_core_binary PyFloat.prec PyFloat.emax (Zpos mx) ex (Zpos my) ey) as [[q e] l].
  destruct Hc as [Hq0 Hqd].
  destruct (round_aux_upper false q e l (Z.max (b - c + 1) (-1074)) Hq0 ltac:(lia) ltac:(lia))
    as [H1 H2].
  split; [exact H1 | apply H2; reflexivity].
Qed.

Lemma font_size_large (length : Z) :
  8212 <= length -> length < 2 ^ 960 ->
  font_size_of_length length = Ok 0.
Proof.
  intros Hlo Hhi. unfold font_size_of_length.
  replace (Z.abs (20 - length)) with (length - 20) by lia.
  set (k := length - 20).
  assert (Hk : 2 ^ 13 <= k) by (change (2 ^ 13) with 8192; lia).
  pose proof (Zdigits2_ge k 14 Hk ltac:(lia)) as Hd14.
  assert (Hd960 : Zdigits2 k <= 960) by (apply Zdigits2_le; lia).
  unfold PyFloat.float_mul_int.
  destruct (of_int_normal k ltac:(lia) ltac:(lia)) as (fk & -> & Hfk). cbn [bind].
  assert (H005 : mag_in (-4) (-4) PyFloat.lit_0_05) by (cbn; lia).
  pose proof (mul_normal _ _ _ _ _ _ H005 Hfk ltac:(lia) ltac:(lia)) as Hs.
  unfold PyFloat.int_add_float.
  change (PyFloat.of_int 1) with (Ok (S754_finite false 4503599627370496 (-52))).
  cbn [bind].
  assert (H1 : mag_in 1 1 (S754_finite false 4503599627370496 (-52))) by (cbn; lia).
  pose proof (add_normal _ _ _ _ _ _ H1 Hs ltac:(lia) ltac:(lia)) as Hden.
  unfold PyFloat.int_div_float.
  change (PyFloat.of_int 100) with (Ok (S754_finite false 7036874417766400 (-46))).
  cbn [bind].
  assert (H100 : mag_in 7 7 (S754_finite false 7036874417766400 (-46))) by (cbn; lia).
  destruct (truediv_upper _ _ _ _ _ _ H100 Hden ltac:(lia)) as (q & -> & Hq & _).
  cbn [bind]. apply to_int_small. eapply mag_le_weaken; [|exact Hq]. lia.
Qed.


(** ** Floats between 0 and 1: the interpolation fraction *)

(** A check that ran over a range holds at each integer of the range. *)
Lemma check_range_spec (p : Z -> bool) (n : nat) (lo : Z) :
  check_range p n lo = true ->
  forall z, lo <= z < lo + Z.of_nat n -> p z = true.
Proof.
  revert lo. induction n as [|n IH]; intros lo H z Hz; [lia|].
  cbn [check_range] in H. apply andb_true_iff in H. destruct H as [H0 H1].
  destruct (Z.eq_dec z lo) as [-> | Hne]; [exact H0|].
  apply (IH (lo + 1) H1). lia.
Qed.

Lemma div_core_lt (m1 m2 : Z) :
  0 < m1 < m2 ->
  let '(q, e', l) := SFdiv_core_binary PyFloat.prec PyFloat.emax m1 0 m2 0 in
  0 <= q < 2 ^ (- e') /\ e' <= -53.
Proof.
  intros H. unfold SFdiv_core_binary.
  pose proof (Zdigits2_mono m1 m2 ltac:(lia)) as Hd.
  set (e' := Z.min (fexp PyFloat.prec PyFloat.emax (Zdigits2 m1 + 0 - (Zdigits2 m2 + 0))) (0 - 0)).
  assert (He' : e' <= -53)
    by (unfold e', fexp, emin, PyFloat.prec, PyFloat.emax; lia).
  remember (0 - 0 - e') as s eqn:Es.
  assert (Hs : s = - e') by lia.
  set (m' := match s with Z.pos _ => Z.shiftl m1 s | 0 => m1 | Z.neg _ => 0 end).
  assert (Hm' : m' = m1 * 2 ^ s).
  { unfold m'. clear m' Es. destruct s as [|p|p]; try lia.
    apply Z.shiftl_mul_pow2. lia. }
  destruct (Z.div_eucl m' m2) as [q r] eqn:E.
  assert (Hq : q = m' / m2) by (unfold Z.div; now rewrite E).
  assert (Hp := pow2_pos s ltac:(lia)).
  rewrite <- Hs. split; [|exact He'].
  rewrite Hq. split; [apply Z.div_pos; nia|].
  apply Z.div_lt_upper_bound; [lia|]. nia.
Qed.

Lemma int_truediv_le_one (y h : Z) :
  0 <= y < h ->
  exists r, PyFloat.int_truediv y h = Ok r /\ mag_le 2 r /\ le_one r.
Proof.
  intros Hyh.
  destruct (int_truediv_upper y h Hyh) as (r & Hr & Hmag & Hnn).
  exists r. split; [exact Hr|]. split; [exact Hmag|].
  revert Hr. unfold PyFloat.int_truediv.
  replace (h =? 0) with false by (symmetry; apply Z.eqb_neq; lia).
  replace (y <? 0) with false by (symmetry; apply Z.ltb_ge; lia).
  replace (h <? 0) with false by (symmetry; apply Z.ltb_ge; lia).
  cbn [xorb].
  destruct (Z.eqb_spec y 0) as [-> | Hy0]; [intros [= <-]; exact I|].
  rewrite (Z.abs_eq y), (Z.abs_eq h) by lia.
  pose proof (div_core_lt y h ltac:(lia)) as Hc.
  destruct (SFdiv_core_binary PyFloat.prec PyFloat.emax y 0 h 0) as [[q e'] l].
  destruct Hc as [Hq He'].
  destruct (binary_round_aux_spec false q e' l ltac:(lia)) as (m2 & e2 & Hm2 & He2 & HM & ->).
  cbv zeta in *.
  set (e1 := Z.max e' (fexp PyFloat.prec PyFloat.emax (Zdigits2 q + e'))) in *.
  assert (Hdq : Zdigits2 q <= - e') by (apply Zdigits2_le; lia).
  assert (He1 : e' <= e1 /\ e1 <= -53)
    by (unfold e1, fexp, emin, PyFloat.prec, PyFloat.emax; lia).
  assert (Hquot : q / 2 ^ (e1 - e') < 2 ^ (- e1)).
  { apply Z.div_lt_upper_bound; [apply pow2_pos; lia|].
    rewrite <- Z.pow_add_r by lia. replace (e1 - e' + - e1) with (- e') by lia. lia. }
  destruct m2 as [|m|m]; [intros [= <-]; exact I | | lia].
  replace (e2 <=? PyFloat.emax - PyFloat.prec) with true
    by (symmetry; apply Z.leb_le; unfold PyFloat.prec, PyFloat.emax; lia).
  intros [= <-]. cbn [le_one]. split; [lia|].
  assert (Hp : 0 < 2 ^ (e2 - e1)) by (apply pow2_pos; lia).
  assert (Hsplit : 2 ^ (- e1) = 2 ^ (- e2) * 2 ^ (e2 - e1)).
  { rewrite <- Z.pow_add_r by lia. f_equal. lia. }
  nia.
Qed.

Lemma of_int_one : PyFloat.of_int 1 = Ok float_one.
Proof. reflexivity. Qed.

Lemma sub_one_nonneg (r : spec_float) :
  le_one r -> nonneg (PyFloat.sub float_one r).
Proof.
  unfold PyFloat.sub, float_one.
  destruct r as [s| | |[] m e]; cbn [le_one]; try contradiction.
  - intros _. destruct s; cbn; reflexivity.
  - intros [He Hm]. cbn [SFsub cond_Zopp].
    replace (Z.min (-52) e) with e by lia.
    pose proof (shl_align_spec 4503599627370496 (-52) e) as HA.
    pose proof (shl_align_spec m e e) as HB.
    pose proof (aligned_digits 4503599627370496 (-52) e) as HdA.
    replace (Z.min (-52) e) with e in HdA by lia.
    destruct (shl_align 4503599627370496 (-52) e) as [A ea].
    destruct (shl_align m e e) as [B eb]. cbn [fst] in *.
    destruct HA as (_ & HAe & HA). destruct HB as (_ & HBe & HB).
    replace (Z.min (-52) e) with e in HAe by lia.
    replace (Z.min e e) with e in HBe by lia. subst ea eb.
    assert (HAv : Zpos A = 2 ^ (- e)).
    { rewrite HA. change (Zpos 4503599627370496) with (2 ^ 52).
      rewrite <- Z.pow_add_r by lia. f_equal. lia. }
    assert (HBv : Zpos B = Zpos m) by (rewrite HB, Z.sub_diag; lia).
    assert (Hz : 0 <= Zpos A - Zpos B) by lia.
    assert (Hdz : Zdigits2 (Zpos A - Zpos B) + e <= 1).
    { pose proof (Zdigits2_mono (Zpos A - Zpos B) (Zpos A) ltac:(lia)).
      change (Zdigits2 (Zpos 4503599627370496)) with 53 in HdA. lia. }
    destruct (binary_normalize_upper (Zpos A - Zpos B) e 1 Hdz ltac:(lia)) as [_ H].
    apply H, Hz.
Qed.

Lemma floor_nonneg (f : spec_float) :
  nonneg f -> PyFloat.floor f = PyFloat.to_int f /\
              exists v, PyFloat.to_int f = Ok v /\ 0 <= v.
Proof.
  destruct f as [s| | |s m e]; cbn [nonneg]; try contradiction.
  - intros _. split; [reflexivity|]. exists 0. cbn. split; [reflexivity | lia].
  - intros ->. cbn [PyFloat.floor PyFloat.to_int].
    destruct e as [|p|p].
    + split; [now rewrite Z.shiftl_mul_pow2 by lia|].
      eexists. split; [reflexivity|]. rewrite Z.shiftl_mul_pow2 by lia. lia.
    + split; [now rewrite Z.shiftl_mul_pow2 by lia|].
      eexists. split; [reflexivity|]. rewrite Z.shiftl_mul_pow2 by lia.
      pose proof (pow2_pos (Zpos p) ltac:(lia)). nia.
    + split; [now rewrite Z.shiftr_div_pow2 by lia|].
      eexists. split; [reflexivity|]. rewrite Z.shiftr_div_pow2 by lia.
      apply Z.div_pos; [lia | apply pow2_pos; lia].
Qed.

Lemma le_one_nonneg (r : spec_float) : le_one r -> nonneg r.
Proof. destruct r as [| | |[] m e]; cbn [le_one nonneg]; intuition. Qed.

Lemma of_int_small (c : Z) :
  small_int c ->
  exists f, PyFloat.of_int c = Ok f /\ mag_le 9 f /\ (0 <= c -> nonneg f).
Proof.
  intros Hc. apply (of_int_upper c 8); [|lia].
  rewrite <- Zdigits2_abs. apply Zdigits2_le; [lia|]. change (2 ^ 8) with 256.
  unfold small_int in Hc. lia.
Qed.

Lemma gradient_channel_total (c1 c2 : Z) (r : spec_float) :
  small_int c1 -> small_int c2 -> mag_le 2 r -> le_one r ->
  exists v, gradient_channel c1 c2 r = Ok v /\
            (0 <= c1 -> 0 <= c2 ->
             spec_gradient_channel c1 c2 r = Ok v /\ 0 <= v).
Proof.
  intros H1 H2 Hmag Hle.
  unfold gradient_channel, spec_gradient_channel, PyFloat.int_sub_float,
    PyFloat.int_mul_float.
  rewrite of_int_one. cbn [bind].
  assert (Hone : mag_le 1 float_one) by (cbn; lia).
  pose proof (sub_upper float_one r 1 2 Hone Hmag ltac:(lia)) as Hs.
  pose proof (sub_one_nonneg r Hle) as Hsn.
  change (Z.max 1 2 + 2) with 4 in Hs.
  destruct (of_int_small c1 H1) as (f1 & -> & Hf1 & Hn1).
  destruct (of_int_small c2 H2) as (f2 & -> & Hf2 & Hn2).
  cbn [bind].
  destruct (mul_upper f1 (PyFloat.sub float_one r) 9 4 Hf1 Hs ltac:(lia)) as [Ha Han].
  destruct (mul_upper f2 r 9 2 Hf2 Hmag ltac:(lia)) as [Hb Hbn].
  destruct (add_upper _ _ _ _ Ha Hb ltac:(lia)) as [Hsum Hsumn].
  destruct (to_int_total _ _ Hsum) as (v & Hv).
  exists v. split; [exact Hv|]. intros Hc1 Hc2.
  assert (Hnn : nonneg (PyFloat.add (PyFloat.mul f1 (PyFloat.sub float_one r)) (PyFloat.mul f2 r))).
  { apply Hsumn; [apply Han | apply Hbn]; auto using le_one_nonneg. }
  destruct (floor_nonneg _ Hnn) as [Hfl (v' & Hv' & Hpos)].
  rewrite Hfl. split; [exact Hv|]. congruence.
Qed.

Lemma gradient_color_total (color1 color2 : color) (y height : Z) :
  small_color color1 -> small_color color2 ->
  0 <= y < height ->
  exists fill, gradient_color color1 color2 y height = Ok fill /\
    (is_rgb color1 -> is_rgb color2 ->
     spec_gradient_color color1 color2 y height = Ok fill /\
     (let '(r, g, b) := fill in 0 <= r /\ 0 <= g /\ 0 <= b)).
Proof.
  destruct color1 as [[r1 g1] b1], color2 as [[r2 g2] b2].
  intros (Hr1 & Hg1 & Hb1) (Hr2 & Hg2 & Hb2) Hy.
  unfold gradient_color, spec_gradient_color.
  destruct (int_truediv_le_one y height Hy) as (r & -> & Hmag & Hle). cbn [bind].
  destruct (gradient_channel_total r1 r2 r Hr1 Hr2 Hmag Hle) as (vr & -> & Sr).
  destruct (gradient_channel_total g1 g2 r Hg1 Hg2 Hmag Hle) as (vg & -> & Sg).
  destruct (gradient_channel_total b1 b2 r Hb1 Hb2 Hmag Hle) as (vb & -> & Sb).
  cbn [bind]. eexists. split; [reflexivity|].
  unfold is_rgb. intros (? & ? & ?) (? & ? & ?).
  destruct Sr as [-> ?]; try lia. destruct Sg as [-> ?]; try lia.
  destruct Sb as [-> ?]; try lia. cbn [bind]. auto.
Qed.

(** ** The image that generate_gradient returns *)

Lemma map_index_length {A : Type} (f : Z -> A -> A) (i : Z) (l : list A) :
  List.length (map_index f i l) = List.length l.
Proof. revert i. induction l as [|a l IH]; intros i; cbn; [reflexivity | now rewrite IH]. Qed.

Lemma map_index_nth_error {A : Type} (f : Z -> A -> A) (i : Z) (l : list A) (n : nat) :
  nth_error (map_index f i l) n = option_map (f (i + Z.of_nat n)) (nth_error l n).
Proof.
  revert i n. induction l as [|a l IH]; intros i [|n]; cbn [map_index nth_error option_map];
    try reflexivity.
  - now rewrite Z.add_0_r.
  - rewrite IH. do 2 f_equal. lia.
Qed.

Lemma fill_row (fill : color) (w : Z) (row : list color) (i : Z) :
  0 <= i -> i + Z.of_nat (List.length row) <= w + 1 ->
  map_index (fun x px => if (0 <=? x) && (x <=? w) then fill else px) i row
  = repeat fill (List.length row).
Proof.
  revert i. induction row as [|px row IH]; intros i Hi Hw; cbn [map_index List.length repeat];
    [reflexivity|].
  cbn [List.length] in Hw.
  replace (0 <=? i) with true by (symmetry; apply Z.leb_le; lia).
  replace (i <=? w) with true by (symmetry; apply Z.leb_le; lia).
  cbn [andb]. f_equal. apply IH; lia.
Qed.

Lemma line_nth_error (img : image) (y w : Z) (fill : color) (W j : nat) :
  rows_of_width W img -> Z.of_nat W <= w + 1 ->
  nth_error (PIL.line img 0 y w fill) j =
  if Z.of_nat j =? y
  then option_map (fun _ => repeat fill W) (nth_error img j)
  else nth_error img j.
Proof.
  intros Hrows Hw. unfold PIL.line. rewrite map_index_nth_error.
  rewrite Z.add_0_l.
  destruct (nth_error img j) as [row|] eqn:E; cbn [option_map];
    [|now destruct (Z.of_nat j =? y)].
  destruct (Z.of_nat j =? y); [|reflexivity].
  f_equal. rewrite fill_row; [|lia|].
  - f_equal. apply Hrows. eapply nth_error_In; eassumption.
  - rewrite (Hrows row); [lia|]. eapply nth_error_In; eassumption.
Qed.

Lemma line_rows_of_width (img : image) (y w : Z) (fill : color) (W : nat) :
  rows_of_width W img -> Z.of_nat W <= w + 1 ->
  rows_of_width W (PIL.line img 0 y w fill) /\
  List.length (PIL.line img 0 y w fill) = List.length img.
Proof.
  intros Hrows Hw. split; [|apply map_index_length].
  intros row Hin. apply In_nth_error in Hin. destruct Hin as [j Hj].
  rewrite (line_nth_error img y w fill W j Hrows Hw) in Hj.
  destruct (nth_error img j) as [row0|] eqn:E.
  - destruct (Z.of_nat j =? y); cbn in Hj; injection Hj as <-.
    + apply repeat_length.
    + apply Hrows. eapply nth_error_In; eassumption.
  - destruct (Z.of_nat j =? y); discriminate.
Qed.

(** What the loop leaves in the image: a row whose index was visited
    holds the colour of that index, any other row is untouched. *)
Lemma gradient_rows_spec (ys : list Z) (width height : Z) (color1 color2 : color)
    (W : nat) (img : image) :
  (forall y, In y ys -> exists fill, gradient_color color1 color2 y height = Ok fill) ->
  rows_of_width W img -> Z.of_nat W <= width + 1 ->
  exists img',
    gradient_rows ys width height color1 color2 img = Ok img' /\
    List.length img' = List.length img /\
    forall j row, nth_error img' j = Some row ->
      (In (Z.of_nat j) ys /\
       exists fill, gradient_color color1 color2 (Z.of_nat j) height = Ok fill /\
                    row = repeat fill W) \/
      (~ In (Z.of_nat j) ys /\ nth_error img j = Some row).
Proof.
  revert img. induction ys as [|y ys IH]; intros img Hcol Hrows Hw.
  - exists img. split; [reflexivity|]. split; [reflexivity|].
    intros j row Hj. right. split; [intros []| exact Hj].
  - cbn [gradient_rows].
    destruct (Hcol y (or_introl eq_refl)) as (fill & Hfill). rewrite Hfill. cbn [bind].
    destruct (line_rows_of_width img y width fill W Hrows Hw) as [Hrows' Hlen'].
    destruct (IH (PIL.line img 0 y width fill)) as (img' & Hrun & Hlen & Hspec);
      [intros y' Hy'; apply Hcol; now right | exact Hrows' | exact Hw |].
    exists img'. split; [exact Hrun|]. split; [congruence|].
    intros j row Hj. destruct (Hspec j row Hj) as [(Hin & Hf) | (Hnin & Hprev)].
    + left. split; [now right | exact Hf].
    + rewrite (line_nth_error img y width fill W j Hrows Hw) in Hprev.
      destruct (Z.eqb_spec (Z.of_nat j) y) as [Heq | Hne].
      * left. split; [now left|]. exists fill. rewrite Heq. split; [exact Hfill|].
        destruct (nth_error img j); cbn in Hprev; congruence.
      * right. split; [|exact Hprev]. intros [Hy | Hin]; [congruence | contradiction].
Qed.

Lemma in_range (n y : Z) : In y (range n) <-> 0 <= y < n.
Proof.
  unfold range. rewrite in_map_iff. split.
  - intros (k & <- & Hk). apply in_seq in Hk. lia.
  - intros Hy. exists (Z.to_nat y). split; [lia|]. apply in_seq. lia.
Qed.

(** generate_gradient returns an image of [height] rows whose row [y] is
    [width] copies of the colour of [y]. *)
Lemma generate_gradient_spec (width height : Z) (color1 color2 : color) :
  0 <= width -> 0 <= height -> small_color color1 -> small_color color2 ->
  exists img,
    generate_gradient width height color1 color2 = Ok img /\
    Z.of_nat (List.length img) = height /\
    forall y, 0 <= y < height ->
      exists fill, gradient_color color1 color2 y height = Ok fill /\
                   nth_error img (Z.to_nat y) = Some (repeat fill (Z.to_nat width)).
Proof.
  intros Hw Hh H1 H2. unfold generate_gradient, PIL.new.
  replace (width <? 0) with false by (symmetry; apply Z.ltb_ge; lia).
  replace (height <? 0) with false by (symmetry; apply Z.ltb_ge; lia).
  cbn [orb bind].
  set (img0 := repeat (repeat (0, 0, 0) (Z.to_nat width)) (Z.to_nat height)).
  destruct (gradient_rows_spec (range height) width height color1 color2
              (Z.to_nat width) img0) as (img & Hrun & Hlen & Hspec).
  - intros y Hy. apply in_range in Hy.
    destruct (gradient_color_total color1 color2 y height H1 H2 Hy) as (fill & Hf & _).
    now exists fill.
  - intros row Hin. apply repeat_spec in Hin. subst row. apply repeat_length.
  - lia.
  - exists img. split; [exact Hrun|].
    assert (Hl : List.length img = Z.to_nat height)
      by (rewrite Hlen; apply repeat_length).
    split; [lia|]. intros y Hy.
    destruct (nth_error img (Z.to_nat y)) as [row|] eqn:E.
    + destruct (Hspec _ _ E) as [(_ & fill & Hf & ->) | (Hnin & _)].
      * rewrite Z2Nat.id in Hf by lia. now exists fill.
      * exfalso. apply Hnin. apply in_range. lia.
    + apply nth_error_None in E. lia.
Qed.

Lemma gradient_channel_top (c1 c2 height : Z) :
  0 <= c1 <= 255 -> small_int c2 ->
  gradient_channel c1 c2 (S754_zero false) = Ok c1.
Proof.
  intros H1 H2.
  assert (Hchk : check_range top_exactb 256 0 = true) by (vm_compute; reflexivity).
  pose proof (check_range_spec _ _ _ Hchk c1 ltac:(lia)) as Htop.
  unfold gradient_channel, PyFloat.int_sub_float. rewrite of_int_one. cbn [bind].
  change (PyFloat.sub float_one (S754_zero false)) with float_one.
  unfold top_exactb in Htop.
  destruct (PyFloat.int_mul_float c1 float_one) as [f1|] eqn:E1; [|discriminate].
  cbn [bind]. unfold PyFloat.int_mul_float.
  destruct (of_int_small c2 H2) as (f2 & -> & Hf2 & _). cbn [bind].
  assert (Hz : exists s, PyFloat.mul f2 (S754_zero false) = S754_zero s).
  { destruct f2; cbn [mag_le] in Hf2; try contradiction; cbn; eauto. }
  destruct Hz as (s & ->).
  clear E1.
  destruct f1 as [s1| | |[] m e];
    try (exfalso; exact (Bool.diff_false_true Htop)).
  - apply Z.eqb_eq in Htop. subst c1. unfold PyFloat.add.
    destruct s1, s; reflexivity.
  - apply result_eqb_eq in Htop. exact Htop.
Qed.

Lemma gradient_color_top (color1 color2 : color) (height : Z) :
  1 <= height -> is_rgb color1 -> small_color color2 ->
  gradient_color color1 color2 0 height = Ok color1.
Proof.
  destruct color1 as [[r1 g1] b1], color2 as [[r2 g2] b2].
  intros Hh (Hr & Hg & Hb) (Hr2 & Hg2 & Hb2).
  unfold gradient_color, PyFloat.int_truediv.
  replace (height =? 0) with false by (symmetry; apply Z.eqb_neq; lia).
  replace (height <? 0) with false by (symmetry; apply Z.ltb_ge; lia).
  cbn [Z.eqb Z.ltb Z.compare xorb bind].
  rewrite !(gradient_channel_top _ _ height) by assumption. reflexivity.
Qed.

Lemma is_rgb_small (c : color) : is_rgb c -> small_color c.
Proof. destruct c as [[r g] b]. unfold is_rgb, small_color, small_int. lia. Qed.



(** The interpolation is computed in binary64: at height 5 the last row of
    the gradient from white to black holds 50, where 255 * (1 - 4/5) is 51
    in exact arithmetic. *)
Example gradient_color_float_drift :
  gradient_color white black 4 5 = Ok (50, 50, 50) /\ 255 * (5 - 4) / 5 = 51.
Proof. split; reflexivity. Qed.

Lemma int_truediv_near_one (h : Z) :
  2048 <= h ->
  exists r, PyFloat.int_truediv (h - 1) h = Ok r /\ near_one r.
Proof.
  intros Hh.
  destruct (int_truediv_le_one (h - 1) h ltac:(lia)) as (r & Hr & _ & Hle).
  exists r. split; [exact Hr|].
  revert Hr Hle. unfold PyFloat.int_truediv.
  replace (h =? 0) with false by (symmetry; apply Z.eqb_neq; lia).
  replace (h - 1 =? 0) with false by (symmetry; apply Z.eqb_neq; lia).
  replace (h - 1 <? 0) with false by (symmetry; apply Z.ltb_ge; lia).
  replace (h <? 0) with false by (symmetry; apply Z.ltb_ge; lia).
  cbn [xorb].
  rewrite (Z.abs_eq (h - 1)), (Z.abs_eq h) by lia.
  pose proof (div_core_lt (h - 1) h ltac:(lia)) as Hc.
  unfold SFdiv_core_binary in *.
  set (e' := Z.min (fexp PyFloat.prec PyFloat.emax
                      (Zdigits2 (h - 1) + 0 - (Zdigits2 h + 0))) (0 - 0)) in *.
  remember (0 - 0 - e') as s eqn:Es.
  set (m' := match s with Z.pos _ => Z.shiftl (h - 1) s | 0 => h - 1 | Z.neg _ => 0 end) in *.
  pose proof (Z_div_mod m' h ltac:(lia)) as Hdm.
  destruct (Z.div_eucl m' h) as [q rr] eqn:E.
  destruct Hc as [Hq He'].
  assert (Hs : s = - e') by lia.
  assert (Hm' : m' = (h - 1) * 2 ^ s).
  { unfold m'. clear m' Hdm E Es. destruct s as [|p|p]; try lia.
    apply Z.shiftl_mul_pow2. lia. }
  destruct (binary_round_aux_spec false q e' (new_location h rr) ltac:(lia))
    as (m2 & e2 & Hm2 & He2 & HM & ->).
  cbv zeta in *.
  set (e1 := Z.max e' (fexp PyFloat.prec PyFloat.emax (Zdigits2 q + e'))) in *.
  assert (Hdq : Zdigits2 q <= - e') by (apply Zdigits2_le; lia).
  assert (He1 : e' <= e1 /\ e1 <= -53)
    by (unfold e1, fexp, emin, PyFloat.prec, PyFloat.emax; lia).
  (* the powers of two at play *)
  set (N := 2 ^ (e1 - e')) in *.
  set (u := 2 ^ (s - 11)).
  assert (HN : 0 < N) by (apply pow2_pos; lia).
  assert (Hu : 0 < u) by (apply pow2_pos; lia).
  assert (HP : 2 ^ s = 2048 * u).
  { unfold u. change 2048 with (2 ^ 11). rewrite <- Z.pow_add_r by lia. f_equal. lia. }
  assert (HNu : N + 1 <= u).
  { assert (N <= 2 ^ (s - 12)) by (apply pow2_le; lia).
    assert (Hu2 : u = 2 * 2 ^ (s - 12)).
    { unfold u. change 2 with (2 ^ 1) at 2. rewrite <- Z.pow_add_r by lia. f_equal. lia. }
    assert (1 <= 2 ^ (s - 12)) by (pose proof (pow2_pos (s - 12) ltac:(lia)); lia).
    lia. }
  assert (HA : 2 ^ (- e1) * N = 2048 * u).
  { unfold N. rewrite <- Z.pow_add_r by lia. rewrite <- HP. f_equal. lia. }
  assert (HB : 2 ^ (- e1 - 10) * N = 2 * u).
  { unfold N, u. rewrite <- Z.pow_add_r by lia. change 2 with (2 ^ 1) at 2.
    rewrite <- Z.pow_add_r by lia. f_equal. lia. }
  assert (HqP : 2048 * u - u - 1 <= q).
  { destruct Hdm as [Hdm Hrr]. rewrite Hm', HP in Hdm. nia. }
  assert (Hquot : 2 ^ (- e1) - 2 ^ (- e1 - 10) < q / N).
  { pose proof (Z.mul_succ_div_gt q N HN) as Hsucc.
    assert (0 < 2 ^ (- e1 - 10)) by (apply pow2_pos; lia).
    nia. }
  assert (Hpw : 2 ^ (- e1 - 10) < 2 ^ (- e1)) by (apply pow2_lt; lia).
  destruct m2 as [|m|m]; [lia | | lia].
  replace (e2 <=? PyFloat.emax - PyFloat.prec) with true
    by (symmetry; apply Z.leb_le; unfold PyFloat.prec, PyFloat.emax; lia).
  intros [= <-]. cbn [le_one near_one]. intros [He2' Hmle].
  split; [exact He2'|]. split; [|exact Hmle].
  destruct (Z.eq_dec e2 e1) as [-> | Hne].
  - rewrite Z.sub_diag, Z.pow_0_r, Z.mul_1_r in HM. lia.
  - assert (He2eq : e2 = e1 + 1) by lia. subst e2.
    replace (e1 + 1 - e1) with 1 in HM by lia. change (2 ^ 1) with 2 in HM.
    assert (H1 : 2 ^ (- e1) = 2 * 2 ^ (- (e1 + 1))).
    { change 2 with (2 ^ 1) at 2. rewrite <- Z.pow_add_r by lia. f_equal. lia. }
    assert (H2 : 2 ^ (- e1 - 10) = 2 * 2 ^ (- (e1 + 1) - 10)).
    { change 2 with (2 ^ 1) at 2. rewrite <- Z.pow_add_r by lia. f_equal. lia. }
    lia.
Qed.

Lemma sub_one_near_one (r : spec_float) :
  near_one r -> mag_le (-9) (PyFloat.sub float_one r).
Proof.
  unfold PyFloat.sub, float_one.
  destruct r as [s| | |[] m e]; cbn [near_one]; try contradiction.
  intros (He & Hlo & Hhi). cbn [SFsub cond_Zopp].
  replace (Z.min (-52) e) with e by lia.
  pose proof (shl_align_spec 4503599627370496 (-52) e) as HA.
  pose proof (shl_align_spec m e e) as HB.
  destruct (shl_align 4503599627370496 (-52) e) as [A ea].
  destruct (shl_align m e e) as [B eb]. cbn [fst] in *.
  destruct HA as (_ & HAe & HA). destruct HB as (_ & HBe & HB).
  replace (Z.min (-52) e) with e in HAe by lia.
  replace (Z.min e e) with e in HBe by lia. subst ea eb.
  assert (HAv : Zpos A = 2 ^ (- e)).
  { rewrite HA. change (Zpos 4503599627370496) with (2 ^ 52).
    rewrite <- Z.pow_add_r by lia. f_equal. lia. }
  assert (HBv : Zpos B = Zpos m) by (rewrite HB, Z.sub_diag; lia).
  assert (Hdz : Zdigits2 (Zpos A - Zpos B) + e <= -10).
  { pose proof (Zdigits2_le (Zpos A - Zpos B) (- e - 10) ltac:(lia) ltac:(lia)). lia. }
  destruct (binary_normalize_upper (Zpos A - Zpos B) e (-10) Hdz ltac:(lia)) as [H _].
  exact H.
Qed.

Lemma gradient_channel_fades (r : spec_float) :
  near_one r -> gradient_channel 255 0 r = Ok 0.
Proof.
  intros Hr. pose proof (sub_one_near_one r Hr) as Hs.
  unfold gradient_channel, PyFloat.int_sub_float, PyFloat.int_mul_float.
  rewrite of_int_one. cbn [bind].
  change (PyFloat.of_int 255) with (Ok (S754_finite false 8972014882652160 (-45))).
  change (PyFloat.of_int 0) with (Ok (S754_zero false)). cbn [bind].
  assert (H255 : mag_le 8 (S754_finite false 8972014882652160 (-45))) by (cbn; lia).
  destruct (mul_upper _ _ 8 (-9) H255 Hs ltac:(lia)) as [Htop _].
  change (8 + -9 + 1) with 0 in Htop.
  assert (Hbot : PyFloat.mul (S754_zero false) r = S754_zero false).
  { destruct r as [| | |[] m e]; cbn [near_one] in Hr; try contradiction. reflexivity. }
  rewrite Hbot.
  set (top := PyFloat.mul (S754_finite false 8972014882652160 (-45))
                (PyFloat.sub float_one r)) in *.
  destruct top as [s| | |s m e] eqn:E; cbn [mag_le] in Htop; try contradiction.
  - unfold PyFloat.add. destruct s; reflexivity.
  - change (PyFloat.add (S754_finite s m e) (S754_zero false)) with (S754_finite s m e).
    apply to_int_small. exact Htop.
Qed.

Lemma gradient_color_grey (a b y height : Z) :
  gradient_color (a, a, a) (b, b, b) y height =
  (r <- PyFloat.int_truediv y height ;;
   c <- gradient_channel a b r ;; Ok (c, c, c)).
Proof.
  unfold gradient_color. destruct (PyFloat.int_truediv y height) as [r|]; [|reflexivity].
  cbn [bind]. destruct (gradient_channel a b r); reflexivity.
Qed.

Lemma last_row_channel_spec (height : Z) :
  1 <= height ->
  exists c, last_row_channel height = Ok c /\
            255 / height - 1 <= c <= 255 / height /\
            (height <= 254 -> 1 <= c) /\ (255 <= height -> c = 0).
Proof.
  intros Hh. destruct (Z_lt_ge_dec height 2048) as [Hlt | Hge].
  - assert (Hchk : check_range last_row_checkb 2047 1 = true) by (vm_compute; reflexivity).
    pose proof (check_range_spec _ _ _ Hchk height ltac:(lia)) as H.
    unfold last_row_checkb in H.
    destruct (last_row_channel height) as [c|]; [|discriminate].
    exists c. split; [reflexivity|].
    destruct (Z.leb_spec height 254); lia.
  - exists 0. unfold last_row_channel.
    destruct (int_truediv_near_one height ltac:(lia)) as (r & -> & Hr). cbn [bind].
    split; [apply gradient_channel_fades, Hr|].
    rewrite Z.div_small by lia. lia.
Qed.


(** ** The font size *)

(** The floor of the exact quotient is an integer division. *)
Lemma exact_font_quotient_floor (length : Z) :
  Qfloor (exact_font_quotient length) = 2000 / (20 + Z.abs (20 - length)).
Proof.
  unfold exact_font_quotient. set (k := Z.abs (20 - length)).
  assert (Hk : 0 <= k) by (unfold k; lia).
  unfold Qdiv, Qplus, Qmult, Qinv, inject_Z. cbn [Qnum Qden].
  change (Zpos (100 * 1)) with 100.
  destruct (1 * 100 + 5 * k * 1) as [|p|p] eqn:E; try lia.
  cbn [Qnum Qden Qfloor]. change (Zpos (1 * p)) with (Zpos p). rewrite <- E.
  change (100 * Zpos (1 * (100 * 1))) with (5 * 2000).
  replace (1 * 100 + 5 * k * 1) with (5 * (20 + k)) by lia.
  apply Z.div_mul_cancel_l; lia.
Qed.

Lemma font_size_formula (length : Z) :
  0 <= length < 2 ^ 960 ->
  font_size_of_length length = Ok (2000 / (20 + Z.abs (20 - length))).
Proof.
  intros [Hlo Hhi]. destruct (Z_lt_ge_dec length 8212) as [Hlt | Hge].
  - assert (Hchk : check_range font_size_checkb (Z.to_nat 8212) 0 = true) by (vm_compute; reflexivity).
    apply result_eqb_eq. apply (check_range_spec _ _ _ Hchk). lia.
  - rewrite font_size_large by lia.
    rewrite Z.div_small; [reflexivity | lia].
Qed.

Lemma len_nonneg (s : string) : 0 <= len s.
Proof. unfold len. lia. Qed.

(** C3 as stated fails: a text of 18 characters gets the size 90, where
    the rounded quotient 100 / 1.1 = 90.909... is 91. *)
Lemma font_size_not_rounded :
  len "abcdefghijklmnopqr" = 18 /\
  get_font_size "abcdefghijklmnopqr" = Ok 90 /\
  spec_font_size_of_length (len "abcdefghijklmnopqr") = Ok 91.
Proof. repeat split; reflexivity. Qed.

(** C3 (amended). Font sizing: for every text (the length of a Python
    string is below 2^63) the font size is the quotient
    100 / (1 + 0.05 * |20 - length|) truncated to an integer, not rounded:
    the floor of the exact quotient, that is 2000 / (20 + |20 - length|) in
    integer division; it is exactly 100 when the length is 20. *)
Theorem get_font_size_truncates (text : string) :
  len text < 2 ^ 63 ->
  get_font_size text = Ok (Qfloor (exact_font_quotient (len text))) /\
  get_font_size text = Ok (2000 / (20 + Z.abs (20 - len text))) /\
  (len text = 20 -> get_font_size text = Ok 100).
Proof.
  intros Hlen. pose proof (len_nonneg text) as H0.
  assert (Hf : get_font_size text = Ok (2000 / (20 + Z.abs (20 - len text)))).
  { unfold get_font_size. apply font_size_formula. split; [exact H0|].
    apply Z.lt_trans with (2 ^ 63); [exact Hlen | reflexivity]. }
  split; [now rewrite exact_font_quotient_floor|]. split; [exact Hf|].
  intros H20. rewrite Hf, H20. reflexivity.
Qed.

Lemma get_font_size_truncates_witness :
  len "abcdefghijklmnopqrst" < 2 ^ 63 /\
  get_font_size "abcdefghijklmnopqrst" = Ok 100.
Proof.
  split; [reflexivity|].
  apply (get_font_size_truncates "abcdefghijklmnopqrst"); reflexivity.
Defined.

(** C8 as stated fails: the lengths 49 and 50 deviate from 20 by 29 and by
    30, and both get the size 40. *)
Lemma font_size_not_strict :
  Z.abs (20 - 49) < Z.abs (20 - 50) /\
  font_size_of_length 49 = Ok 40 /\ font_size_of_length 50 = Ok 40.
Proof. repeat split; reflexivity. Qed.

Lemma quotient_strict (ka kb : Z) :
  0 <= ka < kb -> kb <= 29 -> 2000 / (20 + kb) < 2000 / (20 + ka).
Proof.
  intros Hk Hb.
  assert (Hchk : check_range strict_upto_29b 30 0 = true) by (vm_compute; reflexivity).
  pose proof (check_range_spec _ _ _ Hchk ka ltac:(lia)) as Ha.
  unfold strict_upto_29b in Ha.
  pose proof (check_range_spec _ _ _ Ha kb ltac:(lia)) as Hab. cbv beta in Hab.
  replace (ka <? kb) with true in Hab by (symmetry; apply Z.ltb_lt; lia).
  apply Z.ltb_lt. exact Hab.
Qed.

(** C8 (amended). Font-size monotonicity: for all text lengths a and b
    with |20 - a| < |20 - b|, the size at b is at most the size at a,
    whichever side of 20 the lengths lie on; it is strictly smaller as long
    as |20 - b| <= 29. *)
Theorem font_size_monotone (a b : Z) :
  0 <= a < 2 ^ 63 -> 0 <= b < 2 ^ 63 ->
  Z.abs (20 - a) < Z.abs (20 - b) ->
  exists size_a size_b,
    font_size_of_length a = Ok size_a /\
    font_size_of_length b = Ok size_b /\
    size_b <= size_a /\
    (Z.abs (20 - b) <= 29 -> size_b < size_a).
Proof.
  intros Ha Hb Hlt.
  assert (H63 : 2 ^ 63 < 2 ^ 960) by reflexivity.
  exists (2000 / (20 + Z.abs (20 - a))), (2000 / (20 + Z.abs (20 - b))).
  split; [apply font_size_formula; lia|]. split; [apply font_size_formula; lia|].
  split.
  - apply Z.div_le_compat_l; lia.
  - intros H29. apply quotient_strict; lia.
Qed.

Lemma font_size_monotone_witness :
  Z.abs (20 - 25) < Z.abs (20 - 10) /\
  exists size_a size_b,
    font_size_of_length 25 = Ok size_a /\
    font_size_of_length 10 = Ok size_b /\
    size_b <= size_a /\
    (Z.abs (20 - 10) <= 29 -> size_b < size_a).
Proof.
  split; [reflexivity|].
  apply (font_size_monotone 25 10); lia.
Defined.

(** The clamped dimensions are not negative when the bounds are not. *)
Lemma clamp_nearest_nonneg (lo hi value : Z) :
  0 <= lo -> 0 <= hi -> 0 <= clamp_nearest lo hi value.
Proof. intros Hlo Hhi. clamp_cases; lia. Qed.

Lemma leniently_parsed_small (c : color) : leniently_parsed c -> small_color c.
Proof. destruct c as [[r g] b]. unfold leniently_parsed, small_color, small_int. lia. Qed.

(** Whatever the configuration, a call without text builds no response:
    the handler raises before it reaches the drawing of the text. *)
Lemma get_thumbnail_without_text_no_response (cfg : Config) (raw : nat -> Z)
    (backend : Backend) (width height : Z) (top_color bottom_color : option string)
    (n : nat) :
  exists e n',
    get_thumbnail cfg raw width height top_color bottom_color None n = (Raise e, n').
Proof.
  unfold get_thumbnail, mbind.
  destruct (resolve_color_total raw top_color n) as (top & n1 & -> & _).
  destruct (resolve_color_total raw bottom_color n1) as (bottom & n2 & -> & _).
  unfold lift at 1.
  destruct (generate_gradient (normalize_width cfg width) (normalize_height cfg height)
              top bottom) as [img | e].
  - exists AttributeError, n2. reflexivity.
  - exists e, n2. reflexivity.
Qed.

(** The caption is prepared by two replacements. *)
Example replace_underscores_and_hyphens :
  PyStr.replace (PyStr.replace "hello_world-test" "_" " ") "-" " " = "hello world test"%string.
Proof. reflexivity. Qed.

(** C9. Absent text: with bounds that are not negative, whatever the
    dimensions and the colour arguments, a call of get_thumbnail whose text
    is None yields no response: the colours are resolved, the gradient is
    rendered, and [text.replace] then raises AttributeError. *)
Theorem get_thumbnail_without_text (cfg : Config) (raw : nat -> Z) (backend : Backend)
    (width height : Z) (top_color bottom_color : option string) (n : nat) :
  0 <= API_THUMBNAIL_MIN_WIDTH cfg -> 0 <= API_THUMBNAIL_MAX_WIDTH cfg ->
  0 <= API_THUMBNAIL_MIN_HEIGHT cfg -> 0 <= API_THUMBNAIL_MAX_HEIGHT cfg ->
  exists n',
    get_thumbnail cfg raw width height top_color bottom_color None n
    = (Raise AttributeError, n').
Proof.
  intros H1 H2 H3 H4. unfold get_thumbnail, mbind.
  destruct (resolve_color_total raw top_color n) as (top & n1 & -> & Htop).
  destruct (resolve_color_total raw bottom_color n1) as (bottom & n2 & -> & Hbottom).
  destruct (generate_gradient_spec (normalize_width cfg width) (normalize_height cfg height)
              top bottom) as (img & Himg & _).
  - apply clamp_nearest_nonneg; assumption.
  - apply clamp_nearest_nonneg; assumption.
  - apply leniently_parsed_small, Htop.
  - apply leniently_parsed_small, Hbottom.
  - unfold lift at 1. rewrite Himg. unfold lift at 1. exists n2. reflexivity.
Qed.

Lemma get_thumbnail_without_text_witness :
  exists n',
    get_thumbnail (backend := trivial_backend) sample_config (fun _ => 0) 1200 630
      None None None 0%nat
    = (Raise AttributeError, n').
Proof.
  apply (get_thumbnail_without_text sample_config (fun _ => 0) trivial_backend
           1200 630 None None 0%nat); cbn; lia.
Defined.


(** ** The gradient from white to black *)

Lemma white_to_black_rows (width height : Z) :
  1 <= width -> 1 <= height ->
  exists img c,
    generate_gradient width height white black = Ok img /\
    nth_error img 0 = Some (repeat white (Z.to_nat width)) /\
    nth_error img (Z.to_nat (height - 1)) = Some (repeat (c, c, c) (Z.to_nat width)) /\
    255 / height - 1 <= c <= 255 / height /\
    (height <= 254 -> 1 <= c) /\ (255 <= height -> c = 0).
Proof.
  intros Hw Hh.
  assert (Hwhite : is_rgb white) by (cbn; lia).
  assert (Hblack : is_rgb black) by (cbn; lia).
  destruct (generate_gradient_spec width height white black)
    as (img & Hrun & _ & Hrows); try lia; try (now apply is_rgb_small).
  destruct (last_row_channel_spec height Hh) as (c & Hc & Hbounds).
  exists img, c. split; [exact Hrun|]. split; [|split; [|exact Hbounds]].
  - destruct (Hrows 0 ltac:(lia)) as (fill & Hf & Hrow).
    rewrite gradient_color_top in Hf by (try apply is_rgb_small; auto).
    injection Hf as <-. exact Hrow.
  - destruct (Hrows (height - 1) ltac:(lia)) as (fill & Hf & Hrow).
    unfold white, black in Hf. rewrite gradient_color_grey in Hf.
    unfold last_row_channel in Hc.
    destruct (PyFloat.int_truediv (height - 1) height) as [r|]; [|discriminate].
    cbn [bind] in Hf, Hc. rewrite Hc in Hf. cbn [bind] in Hf.
    injection Hf as <-. exact Hrow.
Qed.

(** C5 as stated fails: at the default size 1200 x 630 the last row of the
    gradient from white to black is exactly black. *)
Lemma gradient_last_row_black :
  exists img,
    generate_gradient 1200 630 white black = Ok img /\
    nth_error img 629 = Some (repeat black 1200).
Proof.
  destruct (white_to_black_rows 1200 630 ltac:(lia) ltac:(lia))
    as (img & c & Hrun & _ & Hlast & _ & _ & Hzero).
  exists img. split; [exact Hrun|].
  rewrite (Hzero ltac:(lia)) in Hlast. exact Hlast.
Qed.

(** C5 (amended). Gradient bottom edge: for every width >= 1 and height
    >= 1, generate_gradient(w, h, white, black) has row 0 exactly white, and
    its last row is a grey (c, c, c) with c equal to 255 / h or one less:
    near black, not black up to height 254, and exactly black from height
    255 on. *)
Theorem gradient_white_to_black (width height : Z) :
  1 <= width -> 1 <= height ->
  exists img c,
    generate_gradient width height white black = Ok img /\
    nth_error img 0 = Some (repeat white (Z.to_nat width)) /\
    nth_error img (Z.to_nat (height - 1)) = Some (repeat (c, c, c) (Z.to_nat width)) /\
    255 / height - 1 <= c <= 255 / height /\
    ((c, c, c) = black <-> 255 <= height).
Proof.
  intros Hw Hh.
  destruct (white_to_black_rows width height Hw Hh)
    as (img & c & Hrun & Hfirst & Hlast & Hc & Hpos & Hzero).
  exists img, c. repeat (split; [assumption|]).
  unfold black. split.
  - intros [= Hc0]. destruct (Z_le_gt_dec 255 height) as [Hge | Hlt]; [exact Hge|].
    specialize (Hpos ltac:(lia)). lia.
  - intros Hge. now rewrite (Hzero Hge).
Qed.

Lemma gradient_white_to_black_witness :
  exists img c,
    generate_gradient 3 5 white black = Ok img /\
    nth_error img 0 = Some (repeat white 3) /\
    nth_error img 4 = Some (repeat (c, c, c) 3) /\
    255 / 5 - 1 <= c <= 255 / 5 /\
    ((c, c, c) = black <-> 255 <= 5).
Proof.
  apply (gradient_white_to_black 3 5); lia.
Defined.
